(** * shell-go: the [command] package

    A shallow embedding of [command.Command] and its method [Start]
    (src/command/command.go), together with the part of the Go runtime the
    method is written against: channels, the descriptor table of the calling
    process, [os/exec] and [bufio.Scanner].

    The three goroutines [Start] leaves behind are kept in the world as
    tasks; each of them is given its meaning by a function that runs it
    against a world. *)

From Stdlib Require Import Strings.Ascii Strings.Byte.
From stdpp Require Import base option list gmap strings.

Set Default Proof Using "Type".
Open Scope string_scope.
Open Scope list_scope.
Open Scope nat_scope.

(** ** Go values *)

(** A Go [string] is a sequence of bytes; [[]byte(line)] copies them out and
    [string(b)] copies them back in. *)
Definition bytes_of (s : string) : list byte := String.list_byte_of_string s.
Definition string_of (b : list byte) : string := String.string_of_list_byte b.

Definition newline : byte := x0a.
Definition carriage_return : byte := x0d.

(** A slice field is either [nil] or a (possibly empty) sequence. *)
Abbreviation slice A := (option (list A)) (only parsing).

(** Channels and files are references into the stores of the world. *)
Abbreviation chan := nat (only parsing).
Abbreviation fd := nat (only parsing).
Abbreviation pid := nat (only parsing).

Inductive error :=
  | EMFILE                      (* os.Pipe: too many open files *)
  | ErrNotFound (name : string) (* exec: executable file not found in $PATH *)
  | ErrStdinSet                 (* exec: Stdin already set *)
  | ErrStdoutSet                (* exec: Stdout already set *)
  | ErrStderrSet                (* exec: Stderr already set *)
  | ErrStarted                  (* exec: already started *)
  | ErrCanceled                 (* context canceled *)
  | ErrFork                     (* fork/exec failed *)
  | ErrClosed                   (* os: file already closed *)
  | EBADF                       (* bad file descriptor *)
  | EPIPE                       (* write: broken pipe *)
  | EIO                         (* read: input/output error *)
  | ErrEnvNUL                   (* exec: environment variable contains NUL *)
  | ErrTooLong.                 (* bufio.Scanner: token too long *)

(** ** The data model: [type Command struct] *)

Record Command := {
  Name   : string;
  Args   : list string;
  Env    : slice string;
  Stdout : option chan;         (* chan<- string, [None] is nil *)
  Stderr : option chan;
  Stdin  : option chan          (* <-chan string *)
}.

(** ** Channels *)

(** A channel by what has been handed over on it and not yet taken, and
    whether it has been closed. *)
Record Chan := { queue : list string; closed : bool }.

Definition new_chan : Chan := {| queue := []; closed := false |}.

(** ** Files *)

(** The result of one [Write] on the child's standard input, as the platform
    decides it: the whole slice is taken, or [n] bytes are taken and an error
    comes back, or [n] bytes are taken and none does. *)
Inductive wres :=
  | WFull
  | WFail (n : nat) (e : error)
  | WShort (n : nat).

Inductive File :=
  | Inherited (written : list byte)
      (* a standard stream the calling process was started with *)
  | PipeIn (pending : list byte) (ending : option error)
      (* the pipe of a child's output stream: the bytes the child wrote that
         have not been read yet, and how reading ends after them ([None] is
         end-of-file) *)
  | PipeOut (written : list byte) (plan : list wres) (close_err : option error)
            (shut : bool)
      (* the pipe of a child's standard input: the bytes the child can read,
         the answers to the writes still to come, the answer to closing it,
         and whether it has been closed *)
  | Gone.
      (* a descriptor that has been closed *)

Definition os_Stdout : fd := 1.
Definition os_Stderr : fd := 2.

(** ** Child processes *)

(** What a program writes to its two output streams, from its arguments and
    its environment. *)
Record Output := {
  out_bytes : list byte; out_end : option error;
  err_bytes : list byte; err_end : option error
}.

Record Program := { behave : list string -> list string -> Output }.

Record Process := {
  p_path   : string;
  p_argv   : list string;
  p_env    : list string;
  p_stdin  : option fd;         (* [None]: the null device *)
  p_stdout : option fd;
  p_stderr : option fd
}.

(** ** The platform *)

(** Everything the calling process does not decide: its own environment, the
    programs that can be found, and the answers of the system calls still to
    come (each list is used up front to back; when it is empty the call
    succeeds). *)
Record Host := {
  environ    : list string;              (* os.Environ() *)
  installed  : gmap string Program;      (* what exec.LookPath finds *)
  pipe_plan  : list (option error);      (* os.Pipe *)
  fork_plan  : option error;             (* os.StartProcess *)
  write_plan : list wres;                (* writes on a new stdin pipe *)
  close_plan : option error              (* closing a new stdin pipe *)
}.

(** [context.Context], by the one thing [exec] asks of it before starting. *)
Record Context := { ctx_done : bool }.

Definition Background : Context := {| ctx_done := false |}.

(** ** [bufio.Scanner] and the goroutines *)

Record Scanner := {
  src   : fd;
  token : list byte;
  serr  : option error
}.

Inductive Task :=
  | StdinRelay (stdin : fd)
  | Reader (s : Scanner) (ch : option chan) (f : fd).

(** ** The world *)

Record World := {
  this  : Command;              (* the receiver [*c] *)
  chans : gmap chan Chan;
  files : list File;
  procs : list Process;
  gos   : list Task;            (* goroutines started with [go] *)
  host  : Host
}.

Definition set_chans (f : gmap chan Chan -> gmap chan Chan) (w : World) : World :=
  {| this := this w; chans := f (chans w); files := files w;
     procs := procs w; gos := gos w; host := host w |}.

Definition set_files (f : list File -> list File) (w : World) : World :=
  {| this := this w; chans := chans w; files := f (files w);
     procs := procs w; gos := gos w; host := host w |}.

Definition set_procs (f : list Process -> list Process) (w : World) : World :=
  {| this := this w; chans := chans w; files := files w;
     procs := f (procs w); gos := gos w; host := host w |}.

Definition set_gos (f : list Task -> list Task) (w : World) : World :=
  {| this := this w; chans := chans w; files := files w;
     procs := procs w; gos := f (gos w); host := host w |}.

Definition set_host (f : Host -> Host) (w : World) : World :=
  {| this := this w; chans := chans w; files := files w;
     procs := procs w; gos := gos w; host := f (host w) |}.

Definition set_pipe_plan (p : list (option error)) (h : Host) : Host :=
  {| environ := environ h; installed := installed h; pipe_plan := p;
     fork_plan := fork_plan h; write_plan := write_plan h;
     close_plan := close_plan h |}.

(** The values the goroutines panic with: the three of the stdin goroutine,
    and the two of the runtime for a channel that is closed already. *)
Inductive PanicValue :=
  | CannotWriteStdin (e : error)        (* "cannot write stdin: %s" *)
  | WroteWant (got want : nat)          (* "wrote %d bytes, want %d" *)
  | PanicErr (e : error)                (* panic(err) *)
  | SendOnClosed                        (* send on closed channel *)
  | CloseOfClosed.                      (* close of closed channel *)

(** How a goroutine stands after it has been run: it returned, it panicked
    (nothing recovers, so the whole program goes down), it waits on a
    channel, or it has not come to an end within the steps it was given. *)
Inductive Status :=
  | Returned
  | Panicked (v : PanicValue)
  | Blocked
  | Running.

(** ** Channel operations *)

Definition chan_get (w : World) (c : chan) : Chan :=
  default new_chan (chans w !! c).

Definition chan_put (c : chan) (st : Chan) (w : World) : World :=
  set_chans (fun m => <[c := st]> m) w.

(** [ch <- line]. The receiver is taken to be there (the sinks "must be
    fully consumed"): the line joins what has been handed over. A send on a
    closed channel panics. *)
Definition chan_send (c : chan) (line : string) (w : World) : Status * World :=
  let st := chan_get w c in
  if closed st then (Panicked SendOnClosed, w)
  else (Returned, chan_put c {| queue := queue st ++ [line]; closed := false |} w).

(** [close(ch)]; closing a closed channel panics. *)
Definition chan_close (c : chan) (w : World) : Status * World :=
  let st := chan_get w c in
  if closed st then (Panicked CloseOfClosed, w)
  else (Returned, chan_put c {| queue := queue st; closed := true |} w).

(** One receive of [for line := range ch]: a line, the end of the loop
    ([Returned]) or a wait ([Blocked]). *)
Definition chan_recv (c : chan) (w : World) : (option string * Status) * World :=
  let st := chan_get w c in
  match queue st with
  | line :: rest =>
      ((Some line, Returned), chan_put c {| queue := rest; closed := closed st |} w)
  | [] => ((None, if closed st then Returned else Blocked), w)
  end.

(** ** File operations *)

Definition file_put (f : fd) (x : File) (w : World) : World :=
  set_files (fun fs => <[f := x]> fs) w.

(** [fmt.Fprintln(f, line)]: the line and a newline. [read] drops what the
    call returns; on anything but an open stream nothing is written. *)
Definition Fprintln (f : fd) (line : string) (w : World) : World :=
  match files w !! f with
  | Some (Inherited written) =>
      file_put f (Inherited (written ++ bytes_of line ++ [newline])) w
  | _ => w
  end.

(** [stdin.Write(data)] on the handle [StdinPipe] gave: the number of bytes
    taken and the error. *)
Definition Write (f : fd) (data : list byte) (w : World)
  : (nat * option error) * World :=
  match files w !! f with
  | Some (PipeOut written plan cerr shut) =>
      if shut then ((0, Some ErrClosed), w)
      else match plan with
           | [] | WFull :: _ =>
               ((length data, None),
                file_put f (PipeOut (written ++ data) (tail plan) cerr false) w)
           | WFail n e :: rest =>
               ((length (take n data), Some e),
                file_put f (PipeOut (written ++ take n data) rest cerr false) w)
           | WShort n :: rest =>
               ((length (take n data), None),
                file_put f (PipeOut (written ++ take n data) rest cerr false) w)
           end
  | _ => ((0, Some EBADF), w)
  end.

(** [Close] of a descriptor; a second close of a pipe reports
    [ErrClosed]. *)
Definition Close (f : fd) (w : World) : option error * World :=
  match files w !! f with
  | Some (PipeOut written plan cerr shut) =>
      if shut then (Some ErrClosed, w)
      else (cerr, file_put f (PipeOut written plan cerr true) w)
  | Some (PipeIn _ _) => (None, file_put f Gone w)
  | _ => (Some EBADF, w)
  end.

(** ** [bufio.Scanner] with the split function [bufio.ScanLines]

    [bufio.NewScanner] gives a scanner with the split function [ScanLines]
    and a buffer that grows to [MaxScanTokenSize = 64 * 1024] bytes.
    [ScanLines] "returns each line of text, stripped of any trailing
    end-of-line marker. The returned line may be empty. The end-of-line
    marker is one optional carriage return followed by one mandatory
    newline. The last non-empty line of input will be returned even if it
    has no newline." Scanning "stops unrecoverably at EOF, the first I/O
    error, or a token too large to fit in the buffer"; after [Scan] has said
    false, [Err] tells which, with nil for end-of-file.

    The scanner is given here by what its caller can observe: the tokens it
    hands out and the error it stops with. The size of the single reads it
    makes does not show in either: a line is too long exactly when the
    buffer is full before its newline has been read, that is when the line
    without its newline has [MaxScanTokenSize] bytes or more. After a failed
    read the bytes read before it are still handed out. *)

Definition MaxScanTokenSize : nat := 64 * 1024.
Arguments MaxScanTokenSize : simpl never.

Definition NewScanner (r : fd) : Scanner :=
  {| src := r; token := []; serr := None |}.

Definition set_token (tok : list byte) (s : Scanner) : Scanner :=
  {| src := src s; token := tok; serr := serr s |}.

Definition set_serr (e : option error) (s : Scanner) : Scanner :=
  {| src := src s; token := token s; serr := e |}.

(** [bytes.IndexByte(data, '\n')] *)
Fixpoint index_newline (data : list byte) : option nat :=
  match data with
  | [] => None
  | b :: rest => if Byte.eqb b newline then Some 0 else S <$> index_newline rest
  end.

(** [dropCR] drops a terminal carriage return from the data. *)
Definition dropCR (data : list byte) : list byte :=
  match last data with
  | Some b => if Byte.eqb b carriage_return then take (length data - 1) data else data
  | None => data
  end.

(** One round of the scanner on the bytes still to come: the next line and
    what is left after its terminator, or a line that does not fit the
    buffer with its terminator, or nothing left. *)
Inductive scan_step :=
  | Token (tok rest : list byte)
  | TooLong
  | Drained.

Definition next_token (pending : list byte) : scan_step :=
  match index_newline pending with
  | Some i =>
      if (MaxScanTokenSize <=? i)%nat then TooLong
      else Token (dropCR (take i pending)) (drop (S i) pending)
  | None =>
      if (MaxScanTokenSize <=? length pending)%nat then TooLong
      else match pending with
           | [] => Drained
           | _ => Token (dropCR pending) []
           end
  end.

(** [s.Scan()]: the bytes of the pipe that have not been made into tokens
    yet stay with the pipe. *)
Definition Scan (s : Scanner) (w : World) : (bool * Scanner) * World :=
  match files w !! src s with
  | Some (PipeIn pending ending) =>
      match next_token pending with
      | Token tok rest =>
          ((true, set_token tok s), file_put (src s) (PipeIn rest ending) w)
      | TooLong => ((false, set_serr (Some ErrTooLong) s), w)
      | Drained => ((false, set_serr ending s), w)
      end
  | Some Gone => ((false, set_serr (Some ErrClosed) s), w)
  | _ => ((false, set_serr (Some EBADF) s), w)
  end.

(** [s.Text()] *)
Definition Text (s : Scanner) : string := string_of (token s).

(** [s.Err()] *)
Definition Err (s : Scanner) : option error := serr s.

(** ** The goroutines of [Start] *)

(** The [go] statement. *)
Definition go (t : Task) (w : World) : World :=
  set_gos (fun ts => ts ++ [t]) w.

(** The loop [for s.Scan() { ... }] of [read]. *)
Fixpoint read_loop (fuel : nat) (s : Scanner) (ch : option chan) (f : fd)
    (w : World) : Status * World :=
  match fuel with
  | 0 => (Running, w)
  | S fuel' =>
      let '((ok, s1), w1) := Scan s w in
      if ok then
        let line := Text s1 in
        match ch with
        | Some c =>
            match chan_send c line w1 with
            | (Returned, w2) => read_loop fuel' s1 ch f w2
            | stuck => stuck
            end
        | None =>
            (* Redirect the output by default if we're not given a channel. *)
            read_loop fuel' s1 ch f (Fprintln f line w1)
        end
      else (Returned, w1)
  end.

(** [read := func(s *bufio.Scanner, ch chan<- string, f *os.File)]: the
    deferred [close(ch)] runs when the loop is left, by a return or by a
    panic. *)
Definition read (fuel : nat) (s : Scanner) (ch : option chan) (f : fd)
    (w : World) : Status * World :=
  let '(st, w1) := read_loop fuel s ch f w in
  match ch, st with
  | Some c, Returned => chan_close c w1
  | Some c, Panicked v => (Panicked v, snd (chan_close c w1))
  | _, _ => (st, w1)
  end.

(** The loop [for line := range c.Stdin { ... }] of the stdin goroutine. *)
Fixpoint stdin_loop (fuel : nat) (source : chan) (stdin : fd) (w : World)
    : Status * World :=
  match fuel with
  | 0 => (Running, w)
  | S fuel' =>
      let '((got, st), w1) := chan_recv source w in
      match got with
      | None => (st, w1)
      | Some line =>
          let data := bytes_of line in
          let '((c, err), w2) := Write stdin data w1 in
          match err with
          | Some e => (Panicked (CannotWriteStdin e), w2)
          | None =>
              if negb (c =? length data)%nat
              then (Panicked (WroteWant c (length data)), w2)
              else stdin_loop fuel' source stdin w2
          end
      end
  end.

(** The body of [go func() { ... }()]; ranging over a nil channel waits for
    ever. *)
Definition stdin_relay (fuel : nat) (stdin : fd) (w : World) : Status * World :=
  match Stdin (this w) with
  | None => (Blocked, w)
  | Some source =>
      let '(st, w1) := stdin_loop fuel source stdin w in
      match st with
      | Returned =>
          (* The writer closed the channel, so we go ahead and close the pipe. *)
          match Close stdin w1 with
          | (Some e, w2) => (Panicked (PanicErr e), w2)
          | (None, w2) => (Returned, w2)
          end
      | _ => (st, w1)
      end
  end.

Definition run (fuel : nat) (t : Task) (w : World) : Status * World :=
  match t with
  | StdinRelay stdin => stdin_relay fuel stdin w
  | Reader s ch f => read fuel s ch f w
  end.

(** ** [os/exec] *)

Inductive res (A : Type) :=
  | Ok (a : A)
  | Failed (e : error).
Arguments Ok {A} a.
Arguments Failed {A} e.

Record Cmd := {
  Path        : string;
  cmd_Args    : list string;
  cmd_Env     : slice string;
  cmd_Stdin   : option fd;
  cmd_Stdout  : option fd;
  cmd_Stderr  : option fd;
  cmd_ctx     : Context;
  lookPathErr : option error;
  cmd_Process : option pid;
  cmd_pipes   : list fd         (* closed again if the start fails *)
}.

Definition set_cmd_Env (e : slice string) (c : Cmd) : Cmd :=
  {| Path := Path c; cmd_Args := cmd_Args c; cmd_Env := e;
     cmd_Stdin := cmd_Stdin c; cmd_Stdout := cmd_Stdout c;
     cmd_Stderr := cmd_Stderr c; cmd_ctx := cmd_ctx c;
     lookPathErr := lookPathErr c; cmd_Process := cmd_Process c;
     cmd_pipes := cmd_pipes c |}.

Definition set_cmd_Stdin (f : fd) (c : Cmd) : Cmd :=
  {| Path := Path c; cmd_Args := cmd_Args c; cmd_Env := cmd_Env c;
     cmd_Stdin := Some f; cmd_Stdout := cmd_Stdout c;
     cmd_Stderr := cmd_Stderr c; cmd_ctx := cmd_ctx c;
     lookPathErr := lookPathErr c; cmd_Process := cmd_Process c;
     cmd_pipes := cmd_pipes c ++ [f] |}.

Definition set_cmd_Stdout (f : fd) (c : Cmd) : Cmd :=
  {| Path := Path c; cmd_Args := cmd_Args c; cmd_Env := cmd_Env c;
     cmd_Stdin := cmd_Stdin c; cmd_Stdout := Some f;
     cmd_Stderr := cmd_Stderr c; cmd_ctx := cmd_ctx c;
     lookPathErr := lookPathErr c; cmd_Process := cmd_Process c;
     cmd_pipes := cmd_pipes c ++ [f] |}.

Definition set_cmd_Stderr (f : fd) (c : Cmd) : Cmd :=
  {| Path := Path c; cmd_Args := cmd_Args c; cmd_Env := cmd_Env c;
     cmd_Stdin := cmd_Stdin c; cmd_Stdout := cmd_Stdout c;
     cmd_Stderr := Some f; cmd_ctx := cmd_ctx c;
     lookPathErr := lookPathErr c; cmd_Process := cmd_Process c;
     cmd_pipes := cmd_pipes c ++ [f] |}.

Definition set_cmd_Process (p : pid) (c : Cmd) : Cmd :=
  {| Path := Path c; cmd_Args := cmd_Args c; cmd_Env := cmd_Env c;
     cmd_Stdin := cmd_Stdin c; cmd_Stdout := cmd_Stdout c;
     cmd_Stderr := cmd_Stderr c; cmd_ctx := cmd_ctx c;
     lookPathErr := lookPathErr c; cmd_Process := Some p;
     cmd_pipes := cmd_pipes c |}.

(** [exec.LookPath] *)
Definition LookPath (name : string) (w : World) : option error :=
  match installed (host w) !! name with
  | Some _ => None
  | None => Some (ErrNotFound name)
  end.

(** [exec.CommandContext(ctx, name, arg...)]: a failed lookup is kept in the
    descriptor and comes back from its [Start]. *)
Definition CommandContext (ctx : Context) (name : string) (arg : list string)
    (w : World) : Cmd :=
  {| Path := name; cmd_Args := name :: arg; cmd_Env := None;
     cmd_Stdin := None; cmd_Stdout := None; cmd_Stderr := None;
     cmd_ctx := ctx; lookPathErr := LookPath name w; cmd_Process := None;
     cmd_pipes := [] |}.

(** [os.Pipe()]; a pipe takes one place in the table. *)
Definition os_Pipe (fresh : File) (w : World) : res fd * World :=
  match pipe_plan (host w) with
  | Some e :: rest => (Failed e, set_host (set_pipe_plan rest) w)
  | plan =>
      (Ok (length (files w)),
       set_files (fun fs => fs ++ [fresh]) (set_host (set_pipe_plan (tail plan)) w))
  end.

(** [cmd.StdinPipe()] *)
Definition StdinPipe (cmd : Cmd) (w : World) : (Cmd * res fd) * World :=
  match cmd_Stdin cmd, cmd_Process cmd with
  | Some _, _ => ((cmd, Failed ErrStdinSet), w)
  | None, Some _ => ((cmd, Failed ErrStarted), w)
  | None, None =>
      match os_Pipe (PipeOut [] (write_plan (host w)) (close_plan (host w)) false) w with
      | (Ok pw, w1) => ((set_cmd_Stdin pw cmd, Ok pw), w1)
      | (Failed e, w1) => ((cmd, Failed e), w1)
      end
  end.

(** [cmd.StdoutPipe()] *)
Definition StdoutPipe (cmd : Cmd) (w : World) : (Cmd * res fd) * World :=
  match cmd_Stdout cmd, cmd_Process cmd with
  | Some _, _ => ((cmd, Failed ErrStdoutSet), w)
  | None, Some _ => ((cmd, Failed ErrStarted), w)
  | None, None =>
      match os_Pipe (PipeIn [] None) w with
      | (Ok pr, w1) => ((set_cmd_Stdout pr cmd, Ok pr), w1)
      | (Failed e, w1) => ((cmd, Failed e), w1)
      end
  end.

(** [cmd.StderrPipe()] *)
Definition StderrPipe (cmd : Cmd) (w : World) : (Cmd * res fd) * World :=
  match cmd_Stderr cmd, cmd_Process cmd with
  | Some _, _ => ((cmd, Failed ErrStderrSet), w)
  | None, Some _ => ((cmd, Failed ErrStarted), w)
  | None, None =>
      match os_Pipe (PipeIn [] None) w with
      | (Ok pr, w1) => ((set_cmd_Stderr pr cmd, Ok pr), w1)
      | (Failed e, w1) => ((cmd, Failed e), w1)
      end
  end.

(** [strings.IndexByte(s, c)] *)
Fixpoint index_byte (c : Ascii.ascii) (s : string) : option nat :=
  match s with
  | EmptyString => None
  | String a rest => if Ascii.eqb a c then Some 0 else S <$> index_byte c rest
  end.

Definition has_NUL (kv : string) : bool :=
  match index_byte Ascii.zero kv with Some _ => true | None => false end.

(** The key under which [exec] looks for copies of an entry: what stands
    before the first "=", where an "=" that opens the entry counts as part
    of the key. An entry without "=" has none. *)
Definition env_key (kv : string) : option string :=
  match index_byte "="%char kv with
  | None => None
  | Some 0 =>
      match index_byte "="%char (match kv with String _ rest => rest | EmptyString => "" end) with
      | Some j => Some (String.substring 0 (S j) kv)
      | None => Some ""
      end
  | Some i => Some (String.substring 0 i kv)
  end.

(** The loop of [dedupEnv] (on a platform with case-sensitive names): it
    goes through the entries from the last to the first, keeps the first
    entry it sees of every key, leaves out an entry that holds a NUL byte
    and remembers the error for it, keeps an entry without "=" unless it is
    empty. *)
Fixpoint dedup_loop (renv : list string) (saw : gset string) (out : list string)
    (err : option error) : list string * option error :=
  match renv with
  | [] => (out, err)
  | kv :: rest =>
      if has_NUL kv then dedup_loop rest saw out (Some ErrEnvNUL)
      else match env_key kv with
           | None =>
               dedup_loop rest saw (if String.eqb kv "" then out else out ++ [kv]) err
           | Some k =>
               if bool_decide (k ∈ saw) then dedup_loop rest saw out err
               else dedup_loop rest ({[k]} ∪ saw) (out ++ [kv]) err
           end
  end.

(** [dedupEnv(env)]: of the entries with the same key the last one is kept,
    in the order of the slice. *)
Definition dedupEnv (env : list string) : list string * option error :=
  let '(out, err) := dedup_loop (reverse env) ∅ [] None in
  (reverse out, err).
Arguments dedupEnv : simpl never.

(** [c.environ()], the environment [exec] starts the child with, and the
    error that keeps it from starting one (as in the Go releases from 1.20
    on, on a platform other than Windows): "If Env is nil, the new process
    uses the current process's environment. If Env contains duplicate
    environment keys, only the last value in the slice for each duplicate
    key is used." *)
Definition cmd_environ (cmd : Cmd) (w : World) : list string * option error :=
  dedupEnv match cmd_Env cmd with
           | None => environ (host w)
           | Some env => env
           end.

Definition closeDescriptors (fs : list fd) (w : World) : World :=
  foldl (fun w f => snd (Close f w)) w fs.

(** The child's output arrives in the pipe its stream was given. *)
Definition feed (f : option fd) (data : list byte) (ending : option error)
    (w : World) : World :=
  match f with
  | Some r =>
      match files w !! r with
      | Some (PipeIn _ _) => file_put r (PipeIn data ending) w
      | _ => w
      end
  | None => w
  end.

(** [cmd.Start()]: the error of the lookup, a descriptor that has been
    started already, a context that is done, an environment that cannot be
    passed on, and a fork that fails, in this order. When it fails the pipes made for the descriptor are closed and no
    process has been started; when it succeeds the child runs, and what it
    writes arrives in the pipes of its streams. *)
Definition exec_Start (cmd : Cmd) (w : World) : (Cmd * option error) * World :=
  match lookPathErr cmd with
  | Some e => ((cmd, Some e), closeDescriptors (cmd_pipes cmd) w)
  | None =>
  match cmd_Process cmd with
  | Some _ => ((cmd, Some ErrStarted), w)
  | None =>
  if ctx_done (cmd_ctx cmd)
  then ((cmd, Some ErrCanceled), closeDescriptors (cmd_pipes cmd) w)
  else
  match cmd_environ cmd w with
  | (_, Some e) => ((cmd, Some e), closeDescriptors (cmd_pipes cmd) w)
  | (env, None) =>
  match fork_plan (host w), installed (host w) !! Path cmd with
  | Some e, _ => ((cmd, Some e), closeDescriptors (cmd_pipes cmd) w)
  | None, None =>
      ((cmd, Some (ErrNotFound (Path cmd))), closeDescriptors (cmd_pipes cmd) w)
  | None, Some prog =>
      let o := behave prog (cmd_Args cmd) env in
      let p := {| p_path := Path cmd; p_argv := cmd_Args cmd; p_env := env;
                  p_stdin := cmd_Stdin cmd; p_stdout := cmd_Stdout cmd;
                  p_stderr := cmd_Stderr cmd |} in
      let w1 := feed (cmd_Stdout cmd) (out_bytes o) (out_end o) w in
      let w2 := feed (cmd_Stderr cmd) (err_bytes o) (err_end o) w1 in
      ((set_cmd_Process (length (procs w)) cmd, None),
       set_procs (fun ps => ps ++ [p]) w2)
  end end end end.

(** What the child finds on its standard input: the bytes it can read and
    whether end-of-input follows them. "If Stdin is nil, the process reads
    from the null device (os.DevNull)." *)
Definition child_stdin (w : World) (p : Process) : list byte * bool :=
  match p_stdin p with
  | None => ([], true)
  | Some f =>
      match files w !! f with
      | Some (PipeOut written _ _ shut) => (written, shut)
      | _ => ([], true)
      end
  end.

(** ** The method [Start] of [Command], from a context to an [exec.Cmd] and an error *)

Definition Start (ctx : Context) (w : World) : (option Cmd * option error) * World :=
  let cmd := CommandContext ctx (Name (this w)) (Args (this w)) w in
  let cmd := set_cmd_Env (Env (this w)) cmd in
  let with_stdin :=
    match Stdin (this w) with
    | Some _ =>
        match StdinPipe cmd w with
        | ((_, Failed err), w) => inr ((None, Some err), w)
        | ((cmd, Ok stdin), w) => inl (cmd, go (StdinRelay stdin) w)
        end
    | None => inl (cmd, w)
    end in
  match with_stdin with
  | inr returned => returned
  | inl (cmd, w) =>
  match StdoutPipe cmd w with
  | ((_, Failed err), w) => ((None, Some err), w)
  | ((cmd, Ok stdout), w) =>
  match StderrPipe cmd w with
  | ((_, Failed err), w) => ((None, Some err), w)
  | ((cmd, Ok stderr), w) =>
  match exec_Start cmd w with
  | ((_, Some err), w) => ((None, Some err), w)
  | ((cmd, None), w) =>
      let w := go (Reader (NewScanner stdout) (Stdout (this w)) os_Stdout) w in
      let w := go (Reader (NewScanner stderr) (Stderr (this w)) os_Stderr) w in
      ((Some cmd, None), w)
  end end end end.

(** ** What a stream holds and what the scanner hands out *)

(** The newline-delimited lines of a byte stream, terminators removed; bytes
    after the last newline count as a line. *)
Fixpoint raw_lines (bs : list byte) : list (list byte) :=
  match bs with
  | [] => []
  | b :: rest =>
      if Byte.eqb b newline then [] :: raw_lines rest
      else match raw_lines rest with
           | [] => [[b]]
           | l :: ls => (b :: l) :: ls
           end
  end.

(** The lines as [ScanLines] decodes them. *)
Definition lines_of (bs : list byte) : list string :=
  map (fun l => string_of (dropCR l)) (raw_lines bs).

(** The tokens the scanner hands out until [Scan] says false. *)
Fixpoint scan_lines (fuel : nat) (pending : list byte) : list string :=
  match fuel with
  | 0 => []
  | S fuel' =>
      match next_token pending with
      | Token tok rest => string_of tok :: scan_lines fuel' rest
      | _ => []
      end
  end.

(** The bytes the scanner leaves in the stream. *)
Fixpoint scan_rest (fuel : nat) (pending : list byte) : list byte :=
  match fuel with
  | 0 => pending
  | S fuel' =>
      match next_token pending with
      | Token tok rest => scan_rest fuel' rest
      | _ => pending
      end
  end.

(** The error [Scan] stops with. *)
Fixpoint scan_err (fuel : nat) (pending : list byte) (ending : option error)
    : option error :=
  match fuel with
  | 0 => None
  | S fuel' =>
      match next_token pending with
      | Token tok rest => scan_err fuel' rest ending
      | TooLong => Some ErrTooLong
      | Drained => ending
      end
  end.

(** What [Fprintln] makes of the lines. *)
Definition echoed (lines : list string) : list byte :=
  concat (map (fun l => bytes_of l ++ [newline]) lines).

(** ** The first step of a launch that the platform refuses *)

Definition pipes_needed (c : Command) : nat :=
  match Stdin c with Some _ => 3 | None => 2 end.

Fixpoint first_error (plan : list (option error)) : option error :=
  match plan with
  | [] => None
  | Some e :: _ => Some e
  | None :: rest => first_error rest
  end.

(** The environment of the child of a launch as [exec] makes it, and the
    error that keeps the child from being started. *)
Definition started_environ (w : World) : list string * option error :=
  dedupEnv match Env (this w) with
           | None => environ (host w)
           | Some env => env
           end.

Definition launch_error (ctx : Context) (w : World) : option error :=
  match first_error (take (pipes_needed (this w)) (pipe_plan (host w))) with
  | Some e => Some e
  | None =>
      match LookPath (Name (this w)) w with
      | Some e => Some e
      | None =>
          if ctx_done ctx then Some ErrCanceled
          else match (started_environ w).2 with
               | Some e => Some e
               | None => fork_plan (host w)
               end
      end
  end.

Definition is_stdin_relay (t : Task) : bool :=
  match t with StdinRelay _ => true | Reader _ _ _ => false end.

Definition is_stdin_pipe (x : File) : bool :=
  match x with PipeOut _ _ _ _ => true | _ => false end.

(** What a goroutine leaves alone: it works on channels and files only. *)
Definition same_program (w w' : World) : Prop :=
  this w' = this w /\ procs w' = procs w /\ gos w' = gos w /\ host w' = host w.


Definition started_cmd (ctx : Context) (w : World) : Cmd :=
  let n := length (files w) in
  let k := match Stdin (this w) with Some _ => 1 | None => 0 end in
  {| Path := Name (this w); cmd_Args := Name (this w) :: Args (this w);
     cmd_Env := Env (this w);
     cmd_Stdin := match Stdin (this w) with Some _ => Some n | None => None end;
     cmd_Stdout := Some (n + k); cmd_Stderr := Some (n + k + 1);
     cmd_ctx := ctx; lookPathErr := None;
     cmd_Process := Some (length (procs w));
     cmd_pipes := match Stdin (this w) with Some _ => [n] | None => [] end
                    ++ [n + k; n + k + 1] |}.

Definition started_env (w : World) : list string := (started_environ w).1.

Definition started_process (w : World) : Process :=
  let n := length (files w) in
  let k := match Stdin (this w) with Some _ => 1 | None => 0 end in
  {| p_path := Name (this w); p_argv := Name (this w) :: Args (this w);
     p_env := started_env w;
     p_stdin := match Stdin (this w) with Some _ => Some n | None => None end;
     p_stdout := Some (n + k); p_stderr := Some (n + k + 1) |}.

Definition started_world (prog : Program) (w : World) : World :=
  let n := length (files w) in
  let k := match Stdin (this w) with Some _ => 1 | None => 0 end in
  let o := behave prog (Name (this w) :: Args (this w)) (started_env w) in
  {| this := this w; chans := chans w;
     files := files w
       ++ match Stdin (this w) with
          | Some _ => [PipeOut [] (write_plan (host w)) (close_plan (host w)) false]
          | None => []
          end
       ++ [PipeIn (out_bytes o) (out_end o); PipeIn (err_bytes o) (err_end o)];
     procs := procs w ++ [started_process w];
     gos := gos w
       ++ match Stdin (this w) with Some _ => [StdinRelay n] | None => [] end
       ++ [Reader (NewScanner (n + k)) (Stdout (this w)) os_Stdout;
           Reader (NewScanner (n + k + 1)) (Stderr (this w)) os_Stderr];
     host := set_pipe_plan (drop (pipes_needed (this w)) (pipe_plan (host w)))
               (host w) |}.


(** The goroutine a failed launch leaves behind: the one of the stdin
    source, started before the steps that can still fail. *)
Definition leaked (w : World) : list Task :=
  match Stdin (this w), pipe_plan (host w) with
  | Some _, Some _ :: _ => []
  | Some _, _ => [StdinRelay (length (files w))]
  | None, _ => []
  end.

(** Two worlds that differ in the contents of the descriptor table only, and
    not in which descriptors are standard-input pipes. *)
Definition only_files (w w' : World) : Prop :=
  exists fs', w' = set_files (fun _ => fs') w /\
    is_stdin_pipe <$> fs' = is_stdin_pipe <$> files w.

(** ** The answers to the writes of the stdin goroutine *)

(** A write answered by [r] takes the whole of [data] and reports no
    error. *)
Definition accepted (r : wres) (data : list byte) : bool :=
  match r with
  | WFull => true
  | WFail _ _ => false
  | WShort n => (length data <=? n)%nat
  end.

(** The bytes a write answered by [r] leaves in the pipe. *)
Definition taken (r : wres) (data : list byte) : list byte :=
  match r with
  | WFull => data
  | WFail n _ | WShort n => take n data
  end.

(** The panic that follows a write that was not accepted. *)
Definition refusal (r : wres) (data : list byte) : PanicValue :=
  match r with
  | WFail _ e => CannotWriteStdin e
  | _ => WroteWant (length (taken r data)) (length data)
  end.

(** The first line whose write is not accepted, with the answer it gets. *)
Fixpoint first_refusal (plan : list wres) (lines : list string) {struct lines}
    : option (nat * wres) :=
  match lines, plan with
  | line :: lines', r :: plan' =>
      if accepted r (bytes_of line)
      then prod_map S id <$> first_refusal plan' lines'
      else Some (0, r)
  | _, _ => None
  end.

(** The bytes of the lines, one after the other. *)
Definition joined (lines : list string) : list byte :=
  concat (bytes_of <$> lines).

(** ** The two output streams of a launch *)

Inductive stream := StdoutStream | StderrStream.

(** The field of the command that holds the sink of a stream. *)
Definition sink_of (s : stream) (c : Command) : option chan :=
  match s with StdoutStream => Stdout c | StderrStream => Stderr c end.

(** The stream of the calling process that stands in for a missing sink. *)
Definition parent_fd (s : stream) : fd :=
  match s with StdoutStream => os_Stdout | StderrStream => os_Stderr end.

(** The place of the pipe of a stream in the table after a launch. *)
Definition pipe_of (s : stream) (w : World) : fd :=
  let n := length (files w) in
  let k := match Stdin (this w) with Some _ => 1 | None => 0 end in
  match s with StdoutStream => n + k | StderrStream => n + k + 1 end.

(** What the child writes to a stream and how reading it ends. *)
Definition stream_bytes (s : stream) (o : Output) : list byte :=
  match s with StdoutStream => out_bytes o | StderrStream => err_bytes o end.

Definition stream_end (s : stream) (o : Output) : option error :=
  match s with StdoutStream => out_end o | StderrStream => err_end o end.

(** The output of the child of a launch. *)
Definition started_output (prog : Program) (w : World) : Output :=
  behave prog (Name (this w) :: Args (this w)) (started_env w).

(** The goroutine [Start] leaves for a stream. *)
Definition reader_of (s : stream) (w : World) : Task :=
  Reader (NewScanner (pipe_of s w)) (sink_of s (this w)) (parent_fd s).

(** ** Scenarios *)

(** [echo]: the arguments, separated by blanks, and a newline. *)
Definition echo : Program :=
  {| behave := fun argv _ =>
       {| out_bytes := bytes_of (String.concat " " (tail argv)) ++ [newline];
          out_end := None; err_bytes := []; err_end := None |} |}.

(** [printenv]: the environment, an entry a line. *)
Definition printenv : Program :=
  {| behave := fun _ env =>
       {| out_bytes := echoed env; out_end := None;
          err_bytes := []; err_end := None |} |}.

(** A program that writes one line of 64 KiB and a short one after it. *)
Definition long_line : list byte :=
  repeat "a"%byte MaxScanTokenSize ++ [newline] ++ bytes_of "tail" ++ [newline].

Definition banner : Program :=
  {| behave := fun _ _ =>
       {| out_bytes := long_line; out_end := None;
          err_bytes := []; err_end := None |} |}.

(** A program whose output can be read up to a point only: after two lines
    the read on its pipe fails. *)
Definition flaky : Program :=
  {| behave := fun _ _ =>
       {| out_bytes := bytes_of "one" ++ [newline] ++ bytes_of "two" ++ [newline];
          out_end := Some EIO; err_bytes := []; err_end := None |} |}.

(** [cat] as far as its own output goes: what it copies depends on its
    input, which the relay provides later. *)
Definition cat : Program :=
  {| behave := fun _ _ =>
       {| out_bytes := []; out_end := None; err_bytes := []; err_end := None |} |}.

Definition a_host : Host :=
  {| environ := ["HOME=/root"; "PATH=/usr/bin"];
     installed := {[ "echo" := echo; "printenv" := printenv;
                     "flaky" := flaky; "cat" := cat ]};
     pipe_plan := []; fork_plan := None; write_plan := []; close_plan := None |}.

Definition banner_host : Host :=
  {| environ := []; installed := {[ "banner" := banner ]};
     pipe_plan := []; fork_plan := None; write_plan := []; close_plan := None |}.

(** A process as it starts: the three standard streams and nothing else. *)
Definition boot (c : Command) (h : Host) : World :=
  {| this := c; chans := ∅; files := [Inherited []; Inherited []; Inherited []];
     procs := []; gos := []; host := h |}.

(** The command of [TestCommand_ConsumeOutput]. *)
Definition greeting : Command :=
  {| Name := "echo"; Args := ["Hello George"]; Env := None;
     Stdout := Some 7; Stderr := None; Stdin := None |}.

(** The command of [TestCommand_Stdin], with [cat] for [grep]. *)
Definition feeding : Command :=
  {| Name := "cat"; Args := []; Env := None;
     Stdout := None; Stderr := None; Stdin := Some 5 |}.

Definition show_env (env : option (list string)) : Command :=
  {| Name := "printenv"; Args := []; Env := env;
     Stdout := Some 7; Stderr := None; Stdin := None |}.

Definition missing : Command :=
  {| Name := "no-such-program"; Args := []; Env := None;
     Stdout := None; Stderr := None; Stdin := Some 5 |}.

Definition with_sink (name : string) : Command :=
  {| Name := name; Args := []; Env := None;
     Stdout := Some 7; Stderr := None; Stdin := None |}.

(** What the caller of [Start] does with the stdin source: it pushes lines
    and closes the channel. *)
Definition push_and_close (source : chan) (lines : list string) (w : World) : World :=
  chan_put source {| queue := queue (chan_get w source) ++ lines; closed := true |} w.

(** The command of [TestCommand_RedirectedOutput]. *)
Definition redirected : Command :=
  {| Name := "echo"; Args := ["This output should be seen in our logs"];
     Env := None; Stdout := None; Stderr := None; Stdin := None |}.

(** The number of line terminators among some bytes. *)
Definition newlines (bs : list byte) : nat :=
  length (List.filter (fun b => Byte.eqb b newline) bs).

(** A platform on which the second write to a stdin pipe breaks after two
    bytes, and one on which closing the pipe fails. *)
Definition broken_pipe_host : Host :=
  {| environ := []; installed := {[ "cat" := cat ]};
     pipe_plan := []; fork_plan := None;
     write_plan := [WFull; WFail 2 EPIPE]; close_plan := None |}.

Definition short_write_host : Host :=
  {| environ := []; installed := {[ "cat" := cat ]};
     pipe_plan := []; fork_plan := None;
     write_plan := [WShort 1]; close_plan := None |}.

Definition close_fails_host : Host :=
  {| environ := []; installed := {[ "cat" := cat ]};
     pipe_plan := []; fork_plan := None;
     write_plan := []; close_plan := Some EIO |}.

(** ** More of the callers' side *)

(** The other output stream. *)
Definition other (s : stream) : stream :=
  match s with StdoutStream => StderrStream | StderrStream => StdoutStream end.

(** The caller pushes lines into the stdin source and leaves it open. *)
Definition push (source : chan) (lines : list string) (w : World) : World :=
  chan_put source {| queue := queue (chan_get w source) ++ lines; closed := false |} w.

(** Output that does not end in a newline. *)
Definition unterminated (bs : list byte) : bool :=
  match last bs with
  | Some b => negb (Byte.eqb b newline)
  | None => false
  end.

(** [echo -n]: the arguments without a newline after them. *)
Definition echo_n : Program :=
  {| behave := fun argv _ =>
       {| out_bytes := bytes_of (String.concat " " (tail argv));
          out_end := None; err_bytes := []; err_end := None |} |}.

(** A program that writes to both of its streams. *)
Definition both : Program :=
  {| behave := fun _ _ =>
       {| out_bytes := bytes_of "out1" ++ [newline] ++ bytes_of "out2" ++ [newline];
          out_end := None;
          err_bytes := bytes_of "warning" ++ [newline];
          err_end := None |} |}.

Definition tools_host : Host :=
  {| environ := [];
     installed := {[ "echo-n" := echo_n; "both" := both; "cat" := cat ]};
     pipe_plan := []; fork_plan := None; write_plan := []; close_plan := None |}.

(** A command with a sink for each stream. *)
Definition two_sinks (name : string) (out err : chan) : Command :=
  {| Name := name; Args := []; Env := None;
     Stdout := Some out; Stderr := Some err; Stdin := None |}.

(** A command without sinks. *)
Definition no_sinks (name : string) (args : list string) : Command :=
  {| Name := name; Args := args; Env := None;
     Stdout := None; Stderr := None; Stdin := None |}.

(** Bytes can be told apart. *)
#[local] Instance byte_eq_decision : EqDecision byte := Byte.byte_eq_dec.

(** Lines put one after the other, a newline after each. *)
Definition terminated (ls : list (list byte)) : list byte :=
  concat ((fun l => l ++ [newline]) <$> ls).

(** A process whose standard output has been closed. *)
Definition boot_closed_stdout (c : Command) (h : Host) : World :=
  {| this := c; chans := ∅; files := [Inherited []; Gone; Inherited []];
     procs := []; gos := []; host := h |}.

(** A program that writes the line "ok" and then the output of [banner]. *)
Definition preamble : Program :=
  {| behave := fun _ _ =>
       {| out_bytes := terminated [bytes_of "ok"] ++ long_line; out_end := None;
          err_bytes := []; err_end := None |} |}.

Definition preamble_host : Host :=
  {| environ := []; installed := {[ "preamble" := preamble ]};
     pipe_plan := []; fork_plan := None; write_plan := []; close_plan := None |}.
(** ** Lines and tokens *)

Section Scanning.

Lemma index_newline_Some (p : list byte) (i : nat) :
  index_newline p = Some i ->
  i < length p /\ raw_lines p = take i p :: raw_lines (drop (S i) p).
Proof.
  revert i. induction p as [|b rest IH]; intros i H; simpl in *; [discriminate|].
  destruct (Byte.eqb b newline).
  - injection H as <-. split; [lia | reflexivity].
  - destruct (index_newline rest) as [j|]; [|discriminate].
    injection H as <-. destruct (IH j eq_refl) as [Hlt Hraw].
    split; [lia|]. rewrite Hraw. reflexivity.
Qed.

Lemma index_newline_None (p : list byte) :
  index_newline p = None -> p <> [] -> raw_lines p = [p].
Proof.
  induction p as [|b rest IH]; intros H Hne; [congruence|]. simpl in *.
  destruct (Byte.eqb b newline); [discriminate|].
  destruct (index_newline rest); [discriminate|].
  destruct rest as [|b' rest']; [reflexivity|].
  rewrite IH; [reflexivity | reflexivity | discriminate].
Qed.

Lemma next_token_shorter (p tok rest : list byte) :
  next_token p = Token tok rest -> length rest < length p.
Proof.
  unfold next_token. destruct (index_newline p) as [i|] eqn:Hi.
  - destruct (MaxScanTokenSize <=? i); [discriminate|].
    intros [= _ <-]. apply index_newline_Some in Hi as [Hlt _].
    rewrite length_drop. lia.
  - destruct (MaxScanTokenSize <=? length p); [discriminate|].
    destruct p; [discriminate|]. intros [= _ <-]. simpl. lia.
Qed.

(** More steps than bytes change nothing. *)
Lemma scan_lines_fuel (fuel fuel' : nat) (p : list byte) :
  length p < fuel -> length p < fuel' -> scan_lines fuel p = scan_lines fuel' p.
Proof.
  revert fuel' p. induction fuel as [|n IH]; intros [|m] p H H'; try lia.
  simpl. destruct (next_token p) as [tok rest| |] eqn:Hn; [|reflexivity..].
  apply next_token_shorter in Hn. f_equal. apply IH; lia.
Qed.

(** When every line of the stream fits the buffer, the tokens are the
    lines. *)
Lemma scan_lines_short (fuel : nat) (p : list byte) :
  length p < fuel ->
  Forall (fun l => length l < MaxScanTokenSize) (raw_lines p) ->
  scan_lines fuel p = lines_of p /\ scan_rest fuel p = [].
Proof.
  revert p. induction fuel as [|n IH]; intros p Hlen Hshort; [lia|].
  simpl. unfold next_token.
  destruct (index_newline p) as [i|] eqn:Hi.
  - destruct (index_newline_Some _ _ Hi) as [Hlt Hraw].
    rewrite Hraw in Hshort. apply Forall_cons in Hshort as [Hhd Htl].
    rewrite length_take in Hhd.
    destruct (Nat.leb_spec MaxScanTokenSize i); [lia|].
    destruct (IH (drop (S i) p)) as [IH1 IH2]; [rewrite length_drop; lia | done |].
    rewrite IH1, IH2. unfold lines_of. rewrite Hraw. done.
  - destruct p as [|b p']; [done|].
    rewrite (index_newline_None _ Hi) in Hshort by done.
    apply Forall_cons in Hshort as [Hhd _].
    destruct (Nat.leb_spec MaxScanTokenSize (length (b :: p'))); [lia|].
    unfold lines_of. rewrite (index_newline_None _ Hi) by done.
    destruct n; [simpl in Hlen; lia|]. done.
Qed.

End Scanning.

(** ** The stores *)

Section Stores.

Lemma chan_get_put_eq (c : chan) (st : Chan) (w : World) :
  chan_get (chan_put c st w) c = st.
Proof. unfold chan_get, chan_put. simpl. by rewrite lookup_insert_eq. Qed.

Lemma chan_get_put_ne (c c' : chan) (st : Chan) (w : World) :
  c <> c' -> chan_get (chan_put c st w) c' = chan_get w c'.
Proof. intros H. unfold chan_get, chan_put. simpl. by rewrite lookup_insert_ne. Qed.

Lemma files_put_eq (f : fd) (x y : File) (w : World) :
  files w !! f = Some y -> files (file_put f x w) !! f = Some x.
Proof.
  intros H. simpl. apply list_lookup_insert_eq. by eapply lookup_lt_Some.
Qed.

Lemma files_put_ne (f f' : fd) (x : File) (w : World) :
  f <> f' -> files (file_put f x w) !! f' = files w !! f'.
Proof. intros H. simpl. by apply list_lookup_insert_ne. Qed.

End Stores.


#[local] Instance same_program_refl : Reflexive same_program.
Proof. by intros w. Qed.

#[local] Instance same_program_trans : Transitive same_program.
Proof. intros w1 w2 w3 (?&?&?&?) (?&?&?&?). repeat split; congruence. Qed.

(** ** The output goroutines *)

Section Readers.

Variables (s : Scanner) (f : fd) (ending : option error).

(** With a sink: every token goes to the channel, in order, and the loop
    returns when the scanner stops, whatever it stops with. *)
Lemma read_loop_sink (c : chan) (fuel : nat) :
  forall (tok : list byte) (serr0 : option error) (w : World) (p : list byte),
    files w !! src s = Some (PipeIn p ending) ->
    closed (chan_get w c) = false ->
    length p < fuel ->
    exists w',
      read_loop fuel {| src := src s; token := tok; serr := serr0 |} (Some c) f w
        = (Returned, w') /\
      chan_get w' c
        = {| queue := queue (chan_get w c) ++ scan_lines fuel p; closed := false |} /\
      (forall c', c <> c' -> chan_get w' c' = chan_get w c') /\
      files w' !! src s = Some (PipeIn (scan_rest fuel p) ending) /\
      (forall f', src s <> f' -> files w' !! f' = files w !! f') /\
      same_program w w'.
Proof.
  induction fuel as [|n IH]; intros tok serr0 w p Hsrc Hopen Hlen; [lia|].
  simpl. unfold Scan. simpl. rewrite Hsrc.
  destruct (next_token p) as [tok' rest| |] eqn:Hn.
  - unfold chan_send. change (chan_get (file_put (src s) (PipeIn rest ending) w) c)
      with (chan_get w c). rewrite Hopen. cbn [Text token set_token src serr].
    set (w2 := chan_put c _ _).
    destruct (IH tok' serr0 w2 rest) as (w' & Hrun & Hq & Hc & Hf & Hf' & Hsame).
    + subst w2. cbn [files chan_put set_chans]. by eapply files_put_eq.
    + subst w2. by rewrite chan_get_put_eq.
    + apply next_token_shorter in Hn. lia.
    + exists w'. split; [exact Hrun|]. split.
      { rewrite Hq. subst w2. rewrite chan_get_put_eq. simpl.
        by rewrite <-app_assoc. }
      split.
      { intros c' Hne. rewrite (Hc c' Hne). subst w2. by rewrite chan_get_put_ne. }
      split; [exact Hf|]. split.
      { intros f' Hne. rewrite (Hf' f' Hne). subst w2.
        cbn [files chan_put set_chans]. by rewrite files_put_ne. }
      etrans; [|exact Hsame]. done.
  - exists w. rewrite app_nil_r. destruct (chan_get w c) as [q cl]; simpl in *.
    subst cl. done.
  - exists w. rewrite app_nil_r. destruct (chan_get w c) as [q cl]; simpl in *.
    subst cl. done.
Qed.

(** Without one: every token goes to [f] with a newline after it. *)
Lemma read_loop_echo (fuel : nat) :
  forall (tok : list byte) (serr0 : option error) (w : World)
         (p old : list byte),
    files w !! src s = Some (PipeIn p ending) ->
    files w !! f = Some (Inherited old) ->
    length p < fuel ->
    exists w',
      read_loop fuel {| src := src s; token := tok; serr := serr0 |} None f w
        = (Returned, w') /\
      files w' !! f = Some (Inherited (old ++ echoed (scan_lines fuel p))) /\
      files w' !! src s = Some (PipeIn (scan_rest fuel p) ending) /\
      chans w' = chans w /\
      same_program w w'.
Proof.
  induction fuel as [|n IH]; intros tok serr0 w p old Hsrc Hf Hlen; [lia|].
  assert (Hne : src s <> f) by (intros Heq; rewrite Heq in Hsrc; congruence).
  simpl. unfold Scan. simpl. rewrite Hsrc.
  destruct (next_token p) as [tok' rest| |] eqn:Hn.
  - cbn [Text token set_token src serr]. unfold Fprintln.
    rewrite files_put_ne by done. rewrite Hf.
    set (w2 := file_put f _ _).
    destruct (IH tok' serr0 w2 rest (old ++ bytes_of (string_of tok') ++ [newline]))
      as (w' & Hrun & Hout & Hin & Hch & Hsame).
    + subst w2. rewrite files_put_ne by done. by eapply files_put_eq.
    + subst w2. eapply files_put_eq. by rewrite files_put_ne.
    + apply next_token_shorter in Hn. lia.
    + exists w'. split; [exact Hrun|]. split.
      { rewrite Hout. unfold echoed. simpl. by rewrite <-!app_assoc. }
      split; [exact Hin|]. split; [by rewrite Hch|].
      etrans; [|exact Hsame]. done.
  - exists w. unfold echoed. simpl. by rewrite app_nil_r.
  - exists w. unfold echoed. simpl. by rewrite app_nil_r.
Qed.

End Readers.

(** ** A launch that succeeds *)

Lemma first_error_take_S (n : nat) (plan : list (option error)) :
  first_error (take (S n) plan) = None ->
  (plan = [] \/ exists rest, plan = None :: rest) /\ first_error (take n (tail plan)) = None.
Proof.
  destruct plan as [|[e|] rest]; simpl; intros H; try discriminate.
  - split; [by left|]. by destruct n.
  - split; [right; by exists rest|]. done.
Qed.

Lemma os_Pipe_ok (n : nat) (fresh : File) (w : World) (plan : list (option error)) :
  pipe_plan (host w) = plan ->
  first_error (take (S n) plan) = None ->
  os_Pipe fresh w =
    (Ok (length (files w)),
     set_files (fun fs => fs ++ [fresh])
       (set_host (set_pipe_plan (drop 1 plan)) w)) /\
  first_error (take n (drop 1 plan)) = None.
Proof.
  intros Hplan H. apply first_error_take_S in H as [Hhd Htl]. unfold os_Pipe.
  rewrite Hplan.
  destruct Hhd as [Hp | [rest Hp]]; rewrite Hp in *; simpl in *;
    rewrite ?drop_0 in *; (split; [reflexivity | assumption]).
Qed.

Lemma insert_at_end {A : Type} (l : list A) (x y : A) (t : list A) :
  <[length l := x]> (l ++ y :: t) = l ++ x :: t.
Proof. induction l as [|a l IH]; simpl; [done | by rewrite IH]. Qed.

Lemma insert_after_end {A : Type} (l : list A) (x y z : A) (t : list A) :
  <[S (length l) := x]> (l ++ y :: z :: t) = l ++ y :: x :: t.
Proof. induction l as [|a l IH]; simpl; [done | by rewrite IH]. Qed.

Lemma lookup_after_end {A : Type} (l : list A) (y z : A) (t : list A) :
  (l ++ y :: z :: t) !! S (length l) = Some z.
Proof. induction l as [|a l IH]; simpl; done. Qed.

Lemma feed_at (l : list File) (a c : list byte) (b d : option error)
    (r1 r2 : fd) (data1 data2 : list byte) (end1 end2 : option error) (w : World) :
  files w = l ++ [PipeIn a b; PipeIn c d] ->
  r1 = length l ->
  r2 = S (length l) ->
  feed (Some r2) data2 end2 (feed (Some r1) data1 end1 w)
    = set_files (fun _ => l ++ [PipeIn data1 end1; PipeIn data2 end2]) w.
Proof.
  intros Hfs -> ->. unfold feed at 2. rewrite Hfs.
  rewrite list_lookup_middle by done.
  unfold feed, file_put, set_files. cbn [files this chans procs gos host].
  rewrite Hfs, insert_at_end, lookup_after_end, insert_after_end. done.
Qed.

Lemma exec_Start_ok (cmd : Cmd) (w : World) (prog : Program) (env : list string) :
  lookPathErr cmd = None ->
  cmd_Process cmd = None ->
  ctx_done (cmd_ctx cmd) = false ->
  cmd_environ cmd w = (env, None) ->
  fork_plan (host w) = None ->
  installed (host w) !! Path cmd = Some prog ->
  exec_Start cmd w =
    (let o := behave prog (cmd_Args cmd) env in
     let p := {| p_path := Path cmd; p_argv := cmd_Args cmd; p_env := env;
                 p_stdin := cmd_Stdin cmd; p_stdout := cmd_Stdout cmd;
                 p_stderr := cmd_Stderr cmd |} in
     ((set_cmd_Process (length (procs w)) cmd, None),
      set_procs (fun ps => ps ++ [p])
        (feed (cmd_Stderr cmd) (err_bytes o) (err_end o)
           (feed (cmd_Stdout cmd) (out_bytes o) (out_end o) w)))).
Proof.
  intros H1 H2 H3 He H4 H5. unfold exec_Start. by rewrite H1, H2, H3, He, H4, H5.
Qed.


Lemma Cmd_ext (a b : Cmd) :
  Path a = Path b -> cmd_Args a = cmd_Args b -> cmd_Env a = cmd_Env b ->
  cmd_Stdin a = cmd_Stdin b -> cmd_Stdout a = cmd_Stdout b ->
  cmd_Stderr a = cmd_Stderr b -> cmd_ctx a = cmd_ctx b ->
  lookPathErr a = lookPathErr b -> cmd_Process a = cmd_Process b ->
  cmd_pipes a = cmd_pipes b -> a = b.
Proof. destruct a, b; simpl; intros; by subst. Qed.

Lemma World_ext (a b : World) :
  this a = this b -> chans a = chans b -> files a = files b ->
  procs a = procs b -> gos a = gos b -> host a = host b -> a = b.
Proof. destruct a, b; simpl; intros; by subst. Qed.

#[local] Arguments feed : simpl never.
#[local] Arguments closeDescriptors : simpl never.

Lemma Start_ok (ctx : Context) (w : World) :
  launch_error ctx w = None ->
  exists prog, installed (host w) !! Name (this w) = Some prog /\
    Start ctx w = ((Some (started_cmd ctx w), None), started_world prog w).
Proof.
  unfold launch_error. intros H.
  destruct (first_error _) eqn:Hpipes; [discriminate|].
  unfold LookPath in H.
  destruct (installed (host w) !! Name (this w)) as [prog|] eqn:Hprog; [|discriminate].
  destruct (ctx_done ctx) eqn:Hctx; [discriminate|].
  destruct (started_environ w) as [env0 [e|]] eqn:Henv; [discriminate|].
  cbn [snd] in H.
  exists prog. split; [done|].
  unfold Start, pipes_needed in *.
  destruct (Stdin (this w)) as [source|] eqn:Hstdin.
  - unfold StdinPipe. cbn [cmd_Stdin cmd_Process set_cmd_Env CommandContext].
    edestruct (os_Pipe_ok 2) as [-> Hpipes2]; [reflexivity | exact Hpipes |].
    unfold StdoutPipe. cbn [cmd_Stdout cmd_Process set_cmd_Env CommandContext set_cmd_Stdin].
    edestruct (os_Pipe_ok 1) as [-> Hpipes3]; [cbn; reflexivity | exact Hpipes2 |].
    unfold StderrPipe. cbn [cmd_Stderr cmd_Process set_cmd_Env CommandContext set_cmd_Stdin set_cmd_Stdout].
    edestruct (os_Pipe_ok 0) as [-> _]; [cbn; reflexivity | exact Hpipes3 |].
    erewrite (exec_Start_ok _ _ prog env0);
      [| cbn; unfold LookPath; by rewrite ?Hprog | done | done | exact Henv | done
       | cbn; exact Hprog].
    cbv zeta. unfold started_environ in Henv.
    destruct w as [c chs fs ps gs [env inst pp fp wp cp]]. cbn in *.
    rewrite (feed_at (fs ++ [PipeOut [] wp cp false]) [] [] None None);
      [| cbn; by rewrite <-!app_assoc | done | by rewrite !length_app; simpl; lia].
    cbn. rewrite !length_app. cbn.
    f_equal; [f_equal; f_equal|].
    + apply Cmd_ext; cbn; rewrite ?Hstdin, ?Nat.add_0_r;
        first [ done
              | by (unfold LookPath; cbn; rewrite Hprog)
              | rewrite <-?app_assoc; cbn; repeat f_equal; lia ].
    + apply World_ext; cbn;
        unfold started_process, started_env, started_environ, pipes_needed,
          set_pipe_plan; cbn;
        by rewrite ?Henv, ?Hstdin, ?drop_drop, ?Nat.add_0_r, <-?app_assoc.
  - unfold StdoutPipe. cbn [cmd_Stdout cmd_Process set_cmd_Env CommandContext].
    edestruct (os_Pipe_ok 1) as [-> Hpipes3]; [reflexivity | exact Hpipes |].
    unfold StderrPipe. cbn [cmd_Stderr cmd_Process set_cmd_Env CommandContext set_cmd_Stdout].
    edestruct (os_Pipe_ok 0) as [-> _]; [cbn; reflexivity | exact Hpipes3 |].
    erewrite (exec_Start_ok _ _ prog env0);
      [| cbn; unfold LookPath; by rewrite ?Hprog | done | done | exact Henv | done
       | cbn; exact Hprog].
    cbv zeta. unfold started_environ in Henv.
    destruct w as [c chs fs ps gs [env inst pp fp wp cp]]. cbn in *.
    rewrite (feed_at fs [] [] None None);
      [| cbn; by rewrite <-!app_assoc | done | by rewrite !length_app; simpl; lia].
    cbn. rewrite !length_app. cbn.
    f_equal; [f_equal; f_equal|].
    + apply Cmd_ext; cbn; rewrite ?Hstdin, ?Nat.add_0_r;
        first [ done
              | by (unfold LookPath; cbn; rewrite Hprog)
              | rewrite <-?app_assoc; cbn; repeat f_equal; lia ].
    + apply World_ext; cbn;
        unfold started_process, started_env, started_environ, pipes_needed,
          set_pipe_plan; cbn;
        by rewrite ?Henv, ?Hstdin, ?drop_drop, ?Nat.add_0_r, <-?app_assoc.
Qed.

(** ** A launch that fails *)

Lemma only_files_refl (w : World) : only_files w w.
Proof. exists (files w). by destruct w. Qed.

Lemma only_files_trans (w1 w2 w3 : World) :
  only_files w1 w2 -> only_files w2 w3 -> only_files w1 w3.
Proof.
  intros (fs2 & -> & H2) (fs3 & -> & H3). exists fs3. split; [done|].
  rewrite H3. exact H2.
Qed.

Lemma only_files_put (f : fd) (x y : File) (w : World) :
  files w !! f = Some y -> is_stdin_pipe x = is_stdin_pipe y ->
  only_files w (file_put f x w).
Proof.
  intros Hf Hk. exists (<[f := x]> (files w)). split; [done|].
  rewrite list_fmap_insert. apply list_insert_id.
  rewrite list_lookup_fmap, Hf. simpl. by rewrite Hk.
Qed.

Lemma Close_only_files (f : fd) (w : World) : only_files w (Close f w).2.
Proof.
  unfold Close. destruct (files w !! f) as [[| | ? ? ? []|]|] eqn:Hf; simpl;
    try apply only_files_refl; by eapply only_files_put.
Qed.

Lemma closeDescriptors_only_files (fs : list fd) (w : World) :
  only_files w (closeDescriptors fs w).
Proof.
  revert w. induction fs as [|f fs IH]; intros w; [apply only_files_refl|].
  unfold closeDescriptors. simpl. eapply only_files_trans; [apply Close_only_files|].
  apply IH.
Qed.

Lemma exec_Start_err (cmd : Cmd) (w : World) (e : error) :
  lookPathErr cmd = LookPath (Path cmd) w ->
  cmd_Process cmd = None ->
  match LookPath (Path cmd) w with
  | Some e => Some e
  | None =>
      if ctx_done (cmd_ctx cmd) then Some ErrCanceled
      else match (cmd_environ cmd w).2 with
           | Some e => Some e
           | None => fork_plan (host w)
           end
  end = Some e ->
  exists w', exec_Start cmd w = ((cmd, Some e), w') /\ only_files w w'.
Proof.
  intros Hlook Hproc He. unfold exec_Start. rewrite Hlook, Hproc.
  unfold LookPath in *.
  destruct (installed (host w) !! Path cmd) as [prog|] eqn:Hprog.
  - destruct (ctx_done (cmd_ctx cmd)).
    + injection He as <-. eexists. split; [done|]. apply closeDescriptors_only_files.
    + destruct (cmd_environ cmd w) as [env [e0|]]; cbn [snd] in He.
      * injection He as <-. eexists. split; [done|].
        apply closeDescriptors_only_files.
      * rewrite He. eexists. split; [done|]. apply closeDescriptors_only_files.
  - injection He as <-. eexists. split; [done|]. apply closeDescriptors_only_files.
Qed.

Lemma os_Pipe_fail (fresh : File) (w : World) (e : error) (rest : list (option error)) :
  pipe_plan (host w) = Some e :: rest ->
  os_Pipe fresh w = (Failed e, set_host (set_pipe_plan rest) w).
Proof. intros H. unfold os_Pipe. by rewrite H. Qed.

Lemma first_error_take_Some (n : nat) (plan : list (option error)) (e : error) :
  first_error (take (S n) plan) = Some e ->
  (exists rest, plan = Some e :: rest) \/
  (exists rest, plan = None :: rest /\ first_error (take n rest) = Some e).
Proof.
  destruct plan as [|[e'|] rest]; simpl; intros H; try discriminate.
  - left. exists rest. congruence.
  - right. by exists rest.
Qed.

#[local] Ltac same_world :=
  f_equal; apply World_ext; cbn; rewrite ?app_nil_r; reflexivity.

Lemma Start_err (ctx : Context) (w : World) (e : error) :
  launch_error ctx w = Some e ->
  exists fs' h',
    Start ctx w =
      ((None, Some e),
       {| this := this w; chans := chans w; files := fs'; procs := procs w;
          gos := gos w ++ leaked w; host := h' |}) /\
    (Stdin (this w) = None ->
     exists k, is_stdin_pipe <$> fs' = (is_stdin_pipe <$> files w) ++ replicate k false).
Proof.
  destruct w as [c chs fs ps gs [env inst pp fp wp cp]].
  unfold launch_error, leaked, pipes_needed, Start, StdinPipe, StdoutPipe,
    StderrPipe, os_Pipe.
  cbn [this host pipe_plan files procs gos chans].
  destruct (Stdin c) as [source|] eqn:Hstdin;
    destruct pp as [|[e1|] [|[e2|] [|[e3|] rest]]]; cbn; intros H;
    try (injection H as <-; eexists _, _; split; [same_world|]).
  all: try (intros ?; congruence).
  all: try (intros _; first [by (exists 0; rewrite app_nil_r) | by (exists 1; rewrite fmap_app)]).
  all: match goal with
       | |- context [exec_Start ?cmd ?w0] =>
           edestruct (exec_Start_err cmd w0 e) as (w' & Hex & fs' & -> & Hkinds);
             [ reflexivity | reflexivity | unfold LookPath in *; cbn in *; exact H
             | rewrite Hex; cbn in *; eexists _, _; split; [same_world|] ]
       | _ => idtac
       end.
  all: try (intros ?; congruence).
  all: try (intros _; exists 2; rewrite Hkinds, !fmap_app; cbn; by rewrite <-app_assoc).
Qed.

(** ** The stdin goroutine *)

Section StdinRelay.

Variables (source : chan) (stdin : fd) (cerr : option error) (cl : bool).

Lemma first_refusal_nil (lines : list string) : first_refusal [] lines = None.
Proof. by destruct lines. Qed.

Lemma stdin_loop_run (fuel : nat) :
  forall (w : World) (lines : list string) (old : list byte) (plan : list wres),
    chan_get w source = {| queue := lines; closed := cl |} ->
    files w !! stdin = Some (PipeOut old plan cerr false) ->
    length lines < fuel ->
    exists st w',
      stdin_loop fuel source stdin w = (st, w') /\
      match first_refusal plan lines with
      | None =>
          st = (if cl then Returned else Blocked) /\
          files w' !! stdin
            = Some (PipeOut (old ++ joined lines) (drop (length lines) plan) cerr false) /\
          chan_get w' source = {| queue := []; closed := cl |}
      | Some (k, r) =>
          exists line,
            lines !! k = Some line /\
            st = Panicked (refusal r (bytes_of line)) /\
            files w' !! stdin
              = Some (PipeOut (old ++ joined (take k lines) ++ taken r (bytes_of line))
                        (drop (S k) plan) cerr false) /\
            chan_get w' source = {| queue := drop (S k) lines; closed := cl |}
      end /\
      same_program w w'.
Proof.
  induction fuel as [|n IH]; intros w lines old plan Hch Hf Hlen; [lia|].
  simpl. unfold chan_recv. rewrite Hch. cbn [queue closed].
  destruct lines as [|line rest].
  { exists (if cl then Returned else Blocked), w. split; [done|].
    cbn [first_refusal]. unfold joined. simpl. rewrite app_nil_r, drop_0.
    by rewrite Hch. }
  set (w1 := chan_put source _ w).
  assert (Hf1 : files w1 !! stdin = Some (PipeOut old plan cerr false)) by exact Hf.
  assert (Hch1 : forall x w2, files w2 = <[stdin := x]> (files w1) ->
            chans w2 = chans w1 ->
            chan_get w2 source = {| queue := rest; closed := cl |}).
  { intros x w2 _ Hc. unfold chan_get. rewrite Hc. subst w1.
    cbn [chans chan_put set_chans]. by rewrite lookup_insert_eq. }
  unfold Write. rewrite Hf1.
  assert (Hgo : forall plan',
    exists st w',
      stdin_loop n source stdin
        (file_put stdin (PipeOut (old ++ bytes_of line) plan' cerr false) w1) = (st, w') /\
      match prod_map S id <$> first_refusal plan' rest with
      | None =>
          st = (if cl then Returned else Blocked) /\
          files w' !! stdin
            = Some (PipeOut (old ++ joined (line :: rest))
                      (drop (length rest) plan') cerr false) /\
          chan_get w' source = {| queue := []; closed := cl |}
      | Some (k, r) =>
          exists line',
            (line :: rest) !! k = Some line' /\
            st = Panicked (refusal r (bytes_of line')) /\
            files w' !! stdin
              = Some (PipeOut (old ++ joined (take k (line :: rest)) ++ taken r (bytes_of line'))
                        (drop k plan') cerr false) /\
            chan_get w' source = {| queue := drop k rest; closed := cl |}
      end /\
      same_program w w').
  { intros plan'.
    destruct (IH (file_put stdin (PipeOut (old ++ bytes_of line) plan' cerr false) w1)
                rest (old ++ bytes_of line) plan')
      as (st & w' & Hrun & Hspec & Hsame).
    - by eapply Hch1.
    - by eapply files_put_eq.
    - simpl in Hlen. lia.
    - exists st, w'. split; [exact Hrun|]. split; [|etrans; [|exact Hsame]; done].
      destruct (first_refusal plan' rest) as [[k r]|]; simpl.
      + destruct Hspec as (line' & Hk & Hst & Hfile & Hq).
        exists line'. split; [exact Hk|]. split; [exact Hst|]. split; [|exact Hq].
        rewrite Hfile. unfold joined. simpl. by rewrite <-!app_assoc.
      + destruct Hspec as (Hst & Hfile & Hq). split; [exact Hst|]. split; [|exact Hq].
        rewrite Hfile. unfold joined. simpl. by rewrite <-!app_assoc. }
  destruct plan as [|[|k e|k] plan']; cbn [tail first_refusal accepted].
  - rewrite Nat.eqb_refl. cbn [negb].
    destruct (Hgo []) as (st & w' & Hrun & Hspec & Hsame).
    exists st, w'. split; [exact Hrun|]. split; [|exact Hsame].
    rewrite first_refusal_nil in Hspec. simpl in Hspec. by rewrite drop_nil in *.
  - rewrite Nat.eqb_refl. cbn [negb].
    destruct (Hgo plan') as (st & w' & Hrun & Hspec & Hsame).
    exists st, w'. split; [exact Hrun|]. split; [|exact Hsame]. exact Hspec.
  - eexists _, _. split; [reflexivity|]. split; [|done].
    exists line. split; [done|]. split; [done|]. split.
    + erewrite files_put_eq by exact Hf1. unfold joined. simpl. by rewrite drop_0.
    + by eapply Hch1.
  - destruct (Nat.leb_spec (length (bytes_of line)) k) as [Hle|Hlt].
    + rewrite take_ge by done. rewrite Nat.eqb_refl. cbn [negb].
      destruct (Hgo plan') as (st & w' & Hrun & Hspec & Hsame).
      exists st, w'. split; [exact Hrun|]. split; [|exact Hsame]. exact Hspec.
    + assert (Hne : (length (take k (bytes_of line)) =? length (bytes_of line)) = false).
      { apply Nat.eqb_neq. rewrite length_take. lia. }
      rewrite Hne. cbn [negb].
      eexists _, _. split; [reflexivity|]. split; [|done].
      exists line. split; [done|]. split; [done|]. split.
      * erewrite files_put_eq by exact Hf1. unfold joined. simpl. by rewrite drop_0.
      * by eapply Hch1.
Qed.

End StdinRelay.

(** ** The world after a launch *)

Lemma Start_started (ctx : Context) (w : World) (prog : Program) :
  launch_error ctx w = None ->
  installed (host w) !! Name (this w) = Some prog ->
  Start ctx w = ((Some (started_cmd ctx w), None), started_world prog w).
Proof.
  intros launched found.
  destruct (Start_ok ctx w launched) as (prog' & Hprog & ->). congruence.
Qed.

Section Started.

Variables (w : World) (prog : Program).

Lemma started_pipe (s : stream) :
  files (started_world prog w) !! pipe_of s w
    = Some (PipeIn (stream_bytes s (started_output prog w))
                   (stream_end s (started_output prog w))).
Proof.
  unfold started_world, pipe_of, started_output. cbn [files].
  destruct (Stdin (this w)), s; cbn [stream_bytes stream_end];
    rewrite lookup_app_r by lia.
  - by replace (length (files w) + 1 - length (files w)) with 1 by lia.
  - by replace (length (files w) + 1 + 1 - length (files w)) with 2 by lia.
  - by replace (length (files w) + 0 - length (files w)) with 0 by lia.
  - by replace (length (files w) + 0 + 1 - length (files w)) with 1 by lia.
Qed.

Lemma started_old (f : fd) (x : File) :
  files w !! f = Some x -> files (started_world prog w) !! f = Some x.
Proof. intros H. cbn [started_world files]. by apply lookup_app_l_Some. Qed.

Lemma started_reader (s : stream) :
  reader_of s w ∈ gos (started_world prog w).
Proof.
  unfold reader_of, started_world, pipe_of. cbn [gos].
  rewrite !elem_of_app. right. right. destruct s; cbn; set_solver.
Qed.

Lemma started_stdin_pipe (source : chan) :
  Stdin (this w) = Some source ->
  files (started_world prog w) !! length (files w)
    = Some (PipeOut [] (write_plan (host w)) (close_plan (host w)) false) /\
  StdinRelay (length (files w)) ∈ gos (started_world prog w).
Proof.
  intros H. unfold started_world. cbn [files gos]. rewrite H. split.
  - cbn [app]. by rewrite list_lookup_middle.
  - set_solver.
Qed.

End Started.

(** ** What no goroutine touches *)

Section Frame.

#[local] Ltac case_files :=
  repeat match goal with
         | |- context [match files ?w !! ?f with _ => _ end] =>
             destruct (files w !! f) as [[]|]
         | |- context [match ?l with [] => _ | _ :: _ => _ end] => destruct l
         | |- context [if ?b then _ else _] => destruct b
         | |- context [match ?r with WFull => _ | _ => _ end] => destruct r
         end.

Lemma Scan_same (s : Scanner) (w : World) : same_program w (Scan s w).2.
Proof. unfold Scan. case_files; try done. by destruct (next_token _). Qed.

Lemma chan_send_same (c : chan) (line : string) (w : World) :
  same_program w (chan_send c line w).2.
Proof. unfold chan_send. by case_files. Qed.

Lemma chan_close_same (c : chan) (w : World) : same_program w (chan_close c w).2.
Proof. unfold chan_close. by case_files. Qed.

Lemma chan_recv_same (c : chan) (w : World) : same_program w (chan_recv c w).2.
Proof. unfold chan_recv. by case_files. Qed.

Lemma Fprintln_same (f : fd) (line : string) (w : World) :
  same_program w (Fprintln f line w).
Proof. unfold Fprintln. by case_files. Qed.

Lemma Write_same (f : fd) (data : list byte) (w : World) :
  same_program w (Write f data w).2.
Proof. unfold Write. by case_files. Qed.

Lemma Close_same (f : fd) (w : World) : same_program w (Close f w).2.
Proof. unfold Close. by case_files. Qed.

Lemma read_loop_same (fuel : nat) (ch : option chan) (f : fd) :
  forall (s : Scanner) (w : World), same_program w (read_loop fuel s ch f w).2.
Proof.
  induction fuel as [|n IH]; intros s w; [done|]. simpl.
  pose proof (Scan_same s w) as HS.
  destruct (Scan s w) as [[[] s1] w1]; simpl in *; [|done].
  destruct ch as [c|].
  - pose proof (chan_send_same c (Text s1) w1) as Hsend.
    destruct (chan_send c (Text s1) w1) as [[] w2]; simpl in *;
      try (by etrans).
    etrans; [exact HS|]. etrans; [exact Hsend|]. apply IH.
  - etrans; [exact HS|]. etrans; [apply Fprintln_same|]. apply IH.
Qed.

Lemma read_same (fuel : nat) (s : Scanner) (ch : option chan) (f : fd) (w : World) :
  same_program w (read fuel s ch f w).2.
Proof.
  unfold read. pose proof (read_loop_same fuel ch f s w) as HL.
  destruct (read_loop fuel s ch f w) as [st w1]; simpl in *.
  destruct ch as [c|], st; simpl; try done;
    (etrans; [exact HL|]; apply chan_close_same).
Qed.

Lemma stdin_loop_same (fuel : nat) (source : chan) (stdin : fd) :
  forall w : World, same_program w (stdin_loop fuel source stdin w).2.
Proof.
  induction fuel as [|n IH]; intros w; [done|]. simpl.
  pose proof (chan_recv_same source w) as HR.
  destruct (chan_recv source w) as [[[line|] st] w1]; simpl in *; [|done].
  pose proof (Write_same stdin (bytes_of line) w1) as HW.
  destruct (Write stdin (bytes_of line) w1) as [[c [e|]] w2]; simpl in *;
    [by etrans|].
  destruct (negb _); simpl; [by etrans|].
  etrans; [exact HR|]. etrans; [exact HW|]. apply IH.
Qed.

Lemma run_same (fuel : nat) (t : Task) (w : World) :
  same_program w (run fuel t w).2.
Proof.
  destruct t as [stdin|s ch f]; simpl; [|apply read_same].
  unfold stdin_relay. destruct (Stdin (this w)) as [source|]; [|done].
  pose proof (stdin_loop_same fuel source stdin w) as HL.
  destruct (stdin_loop fuel source stdin w) as [st w1]; simpl in *.
  destruct st; try done.
  pose proof (Close_same stdin w1) as HC.
  destruct (Close stdin w1) as [[e|] w2]; simpl in *; by etrans.
Qed.

End Frame.

(** * The claims *)

(** ** Launching *)

(** C3. When one of the steps of a launch fails (the stdin pipe of a launch
    with a source, the stdout pipe, the stderr pipe, or the start of the
    child, which itself reports a failed lookup, a context that is done or a
    failed fork; [launch_error] is the first of them), [Start] returns a nil
    descriptor and that error, and the process table is as before. When
    none fails, it returns a descriptor and a nil error, and the descriptor
    names a process the table now holds, running the named program. *)
Theorem Start_returns (ctx : Context) (w : World) :
  match launch_error ctx w with
  | Some e =>
      (Start ctx w).1 = (None, Some e) /\
      procs (Start ctx w).2 = procs w
  | None =>
      exists (cmd : Cmd) (child : pid) (p : Process),
        (Start ctx w).1 = (Some cmd, None) /\
        cmd_Process cmd = Some child /\
        procs w !! child = None /\
        procs (Start ctx w).2 !! child = Some p /\
        procs (Start ctx w).2 = procs w ++ [p] /\
        p_path p = Name (this w) /\
        p_argv p = Name (this w) :: Args (this w)
  end.
Proof.
  destruct (launch_error ctx w) as [e|] eqn:He.
  - destruct (Start_err ctx w e He) as (fs' & h' & -> & _). done.
  - destruct (Start_ok ctx w He) as (prog & Hprog & ->).
    exists (started_cmd ctx w), (length (procs w)), (started_process w).
    cbn [fst snd started_world procs started_cmd cmd_Process].
    repeat split; try done.
    + by apply lookup_ge_None_2.
    + by rewrite list_lookup_middle.
Qed.

(** C8. [Start] leaves the command as it found it, field by field, and so
    does every goroutine it has started, however far it is run. *)
Theorem Start_keeps_Command (ctx : Context) (w : World) :
  let c := this w in
  let c' := this (Start ctx w).2 in
  (Name c' = Name c /\ Args c' = Args c /\ Env c' = Env c /\
   Stdout c' = Stdout c /\ Stderr c' = Stderr c /\ Stdin c' = Stdin c) /\
  (forall (fuel : nat) (t : Task), this (run fuel t (Start ctx w).2).2 = c).
Proof.
  assert (H : this (Start ctx w).2 = this w).
  { destruct (launch_error ctx w) as [e|] eqn:He.
    - by destruct (Start_err ctx w e He) as (fs' & h' & -> & _).
    - by destruct (Start_ok ctx w He) as (prog & Hprog & ->). }
  cbv zeta. rewrite H. split; [done|].
  intros fuel t. destruct (run_same fuel t (Start ctx w).2) as (-> & _). exact H.
Qed.

(** C10. A launch of a command without a stdin source starts no goroutine
    for standard input and adds no stdin pipe to the descriptor table; the
    child, when the launch succeeds, has no descriptor for its standard
    input, so that it reads the null device: nothing, and then
    end-of-input, whatever happens in the calling process. *)
Theorem Start_without_stdin (ctx : Context) (w : World) :
  Stdin (this w) = None ->
  let w' := (Start ctx w).2 in
  (exists ts, gos w' = gos w ++ ts /\ Forall (fun t => is_stdin_relay t = false) ts) /\
  (exists k, is_stdin_pipe <$> files w' = (is_stdin_pipe <$> files w) ++ replicate k false) /\
  (forall cmd, (Start ctx w).1.1 = Some cmd ->
     cmd_Stdin cmd = None /\
     exists p, last (procs w') = Some p /\ p_stdin p = None /\
       forall w'' : World, child_stdin w'' p = ([], true)).
Proof.
  intros Hnil. cbv zeta.
  destruct (launch_error ctx w) as [e|] eqn:He.
  - destruct (Start_err ctx w e He) as (fs' & h' & -> & Hkinds).
    cbn [fst snd gos files]. split; [|split].
    + exists []. unfold leaked. rewrite Hnil. by rewrite !app_nil_r.
    + by apply Hkinds.
    + discriminate.
  - destruct (Start_ok ctx w He) as (prog & Hprog & ->).
    cbn [fst snd started_world gos files procs]. rewrite Hnil. split; [|split].
    + eexists. split; [reflexivity|]. by repeat constructor.
    + exists 2. by rewrite fmap_app.
    + intros cmd [= <-]. cbn [started_cmd cmd_Stdin]. rewrite Hnil. split; [done|].
      exists (started_process w). rewrite last_snoc. split; [done|].
      unfold child_stdin, started_process. cbn [p_stdin]. by rewrite Hnil.
Qed.

Lemma Start_without_stdin_witness :
  Stdin (this (boot greeting a_host)) = None /\
  (forall cmd, (Start Background (boot greeting a_host)).1.1 = Some cmd ->
     cmd_Stdin cmd = None /\
     exists p, last (procs (Start Background (boot greeting a_host)).2) = Some p /\
       p_stdin p = None /\
       forall w'' : World, child_stdin w'' p = ([], true)).
Proof.
  split; [reflexivity|].
  apply (Start_without_stdin Background (boot greeting a_host)). reflexivity.
Defined.

(** C4 as it stands fails: the command of the tests leaves [Env] unset, and
    its child is started with every variable of the calling process. *)
Lemma empty_Env_inherits :
  ~ (forall (ctx : Context) (w : World) (cmd : Cmd) (w' : World) (p : Process),
       (Env (this w) = None \/ Env (this w) = Some []) ->
       Start ctx w = ((Some cmd, None), w') ->
       last (procs w') = Some p ->
       p_env p = []).
Proof.
  intros H.
  specialize (H Background (boot (show_env None) a_host)).
  destruct (Start Background (boot (show_env None) a_host)) as [[cmd err] w'] eqn:HS.
  vm_compute in HS. injection HS as <- <- <-.
  specialize (H _ _ _ (or_introl eq_refl) eq_refl eq_refl). discriminate.
Qed.

(** What [exec] passes on is taken from the slice it was given. *)
Lemma dedup_loop_subseteq (renv : list string) :
  forall (saw : gset string) (out : list string) (err : option error),
    (dedup_loop renv saw out err).1 ⊆ out ++ renv.
Proof.
  induction renv as [|kv rest IH]; intros saw out err; simpl.
  - by rewrite app_nil_r.
  - assert (Hkeep : forall saw' err', (* the entry is kept *)
              (dedup_loop rest saw' (out ++ [kv]) err').1 ⊆ out ++ kv :: rest).
    { intros saw' err' x Hx. apply IH in Hx. by rewrite <-app_assoc in Hx. }
    assert (Hdrop : forall saw' err', (* the entry is left out *)
              (dedup_loop rest saw' out err').1 ⊆ out ++ kv :: rest).
    { intros saw' err' x Hx. apply IH in Hx. revert Hx.
      rewrite !elem_of_app, elem_of_cons. tauto. }
    destruct (has_NUL kv); [apply Hdrop|].
    destruct (env_key kv) as [k|].
    + destruct (bool_decide (k ∈ saw)); [apply Hdrop | apply Hkeep].
    + destruct (String.eqb kv ""); [apply Hdrop | apply Hkeep].
Qed.

Lemma dedupEnv_subseteq (env : list string) : (dedupEnv env).1 ⊆ env.
Proof.
  unfold dedupEnv.
  pose proof (dedup_loop_subseteq (reverse env) ∅ [] None) as H.
  destruct (dedup_loop (reverse env) ∅ [] None) as [out err].
  cbn [fst] in *. intros x Hx. rewrite elem_of_reverse in Hx. apply H in Hx.
  rewrite app_nil_l in Hx. by rewrite elem_of_reverse in Hx.
Qed.

(** Of two entries with the same key the child gets the last one, and a
    launch with an entry that holds a NUL byte fails. *)
Example repeated_key_keeps_last :
  p_env <$> last (procs (Start Background
                           (boot (show_env (Some ["A=1"; "B=2"; "A=3"])) a_host)).2)
    = Some ["B=2"; "A=3"].
Proof. vm_compute. reflexivity. Qed.

Example NUL_entry_fails_launch :
  (Start Background
     (boot (show_env (Some ["A=1"; String Ascii.zero "B=2"])) a_host)).1
    = (None, Some ErrEnvNUL).
Proof. vm_compute. reflexivity. Qed.

(** C4, amended. The child of a launch whose [Env] is an empty slice that
    is not nil is started with no environment variable. When [Env] is nil
    (the field was left unset) the child is started with the environment of
    the calling process, as [exec] passes it on; otherwise every variable
    of the child is an entry of [Env]. *)
Theorem Start_environment (ctx : Context) (w : World) (cmd : Cmd) (w' : World) :
  Start ctx w = ((Some cmd, None), w') ->
  exists p,
    last (procs w') = Some p /\
    (Env (this w) = Some [] -> p_env p = []) /\
    (Env (this w) = None -> p_env p = (dedupEnv (environ (host w))).1) /\
    (forall env, Env (this w) = Some env -> p_env p ⊆ env).
Proof.
  intros HS. destruct (launch_error ctx w) as [e|] eqn:He.
  - destruct (Start_err ctx w e He) as (fs' & h' & HS' & _). congruence.
  - destruct (Start_ok ctx w He) as (prog & Hprog & HS').
    rewrite HS' in HS. injection HS as <- <-.
    exists (started_process w). cbn [started_world procs].
    split; [by rewrite last_snoc|].
    cbn [started_process p_env]. unfold started_env, started_environ.
    split; [|split].
    + intros ->. reflexivity.
    + intros ->. reflexivity.
    + intros env ->. apply dedupEnv_subseteq.
Qed.

Lemma Start_environment_witness :
  exists p,
    last (procs (Start Background (boot (show_env (Some [])) a_host)).2) = Some p /\
    (Env (this (boot (show_env (Some [])) a_host)) = Some [] -> p_env p = []) /\
    (Env (this (boot (show_env (Some [])) a_host)) = None ->
       p_env p = (dedupEnv (environ (host (boot (show_env (Some [])) a_host)))).1) /\
    (forall env, Env (this (boot (show_env (Some [])) a_host)) = Some env ->
       p_env p ⊆ env).
Proof.
  apply (Start_environment Background (boot (show_env (Some [])) a_host)
           (started_cmd Background (boot (show_env (Some [])) a_host))).
  vm_compute. reflexivity.
Defined.

(** C7. A launch of a program that cannot be found, with a stdin source:
    [Start] returns the lookup error and no process is running, but the
    goroutine started for the source before the failing step is still there,
    waiting on the channel, and the stdin pipe it holds has been closed
    under it. *)
Theorem Start_missing_program_leaks :
  let w' := (Start Background (boot missing a_host)).2 in
  (Start Background (boot missing a_host)).1
    = (None, Some (ErrNotFound "no-such-program")) /\
  procs w' = [] /\
  gos w' = [StdinRelay 3] /\
  files w' !! 3 = Some (PipeOut [] [] None true) /\
  forall fuel, (run (S fuel) (StdinRelay 3) w').1 = Blocked.
Proof.
  cbv zeta. repeat split; vm_compute; reflexivity.
Qed.

(** A failed launch with a stdin source leaves the goroutine of the source
    behind whenever the stdin pipe itself could be made. *)
Lemma Start_failure_leaks (ctx : Context) (w : World) (e : error) (source : chan) :
  launch_error ctx w = Some e ->
  Stdin (this w) = Some source ->
  head (pipe_plan (host w)) = None \/ head (pipe_plan (host w)) = Some None ->
  (Start ctx w).1 = (None, Some e) /\
  gos (Start ctx w).2 = gos w ++ [StdinRelay (length (files w))].
Proof.
  intros He Hsrc Hhd. destruct (Start_err ctx w e He) as (fs' & h' & -> & _).
  split; [done|]. cbn [snd gos]. unfold leaked. rewrite Hsrc.
  by destruct (pipe_plan (host w)) as [|[e1|] rest], Hhd.
Qed.

(** ** The output goroutines of a launch *)

Section Output.

Variables (ctx : Context) (w : World) (prog : Program) (s : stream).
Hypothesis launched : launch_error ctx w = None.
Hypothesis found : installed (host w) !! Name (this w) = Some prog.

(** With a sink that is open, the goroutine of a stream hands every token of
    the scanner to the sink, in order, closes the sink and returns: at
    end-of-file, after a failed read, and at a line the scanner cannot
    hold. *)
Lemma reader_with_sink (c : chan) (fuel : nat) :
  sink_of s (this w) = Some c ->
  closed (chan_get w c) = false ->
  length (stream_bytes s (started_output prog w)) < fuel ->
  reader_of s w ∈ gos (Start ctx w).2 /\
  exists w2,
    run fuel (reader_of s w) (Start ctx w).2 = (Returned, w2) /\
    chan_get w2 c =
      {| queue := queue (chan_get w c)
                    ++ scan_lines fuel (stream_bytes s (started_output prog w));
         closed := true |}.
Proof using launched found.
  intros Hsink Hopen Hfuel. rewrite (Start_started ctx w prog launched found).
  cbn [snd]. split; [apply started_reader|].
  unfold reader_of, run, read. rewrite Hsink.
  destruct (read_loop_sink (NewScanner (pipe_of s w)) (parent_fd s)
              (stream_end s (started_output prog w)) c fuel [] None
              (started_world prog w) (stream_bytes s (started_output prog w)))
    as (w1 & Hrun & Hq & _); [apply started_pipe | exact Hopen | exact Hfuel |].
  change {| src := src (NewScanner (pipe_of s w)); token := []; serr := None |}
    with (NewScanner (pipe_of s w)) in Hrun.
  rewrite Hrun. unfold chan_close. rewrite Hq. cbn [closed queue].
  eexists. split; [reflexivity|]. by rewrite chan_get_put_eq.
Qed.

(** Without a sink, it writes every token and a newline after it to the
    stream of the calling process, in order, and returns. *)
Lemma reader_without_sink (old : list byte) (fuel : nat) :
  sink_of s (this w) = None ->
  files w !! parent_fd s = Some (Inherited old) ->
  length (stream_bytes s (started_output prog w)) < fuel ->
  reader_of s w ∈ gos (Start ctx w).2 /\
  exists w2,
    run fuel (reader_of s w) (Start ctx w).2 = (Returned, w2) /\
    files w2 !! parent_fd s =
      Some (Inherited
              (old ++ echoed (scan_lines fuel (stream_bytes s (started_output prog w))))) /\
    chans w2 = chans w.
Proof using launched found.
  intros Hsink Hold Hfuel. rewrite (Start_started ctx w prog launched found).
  cbn [snd]. split; [apply started_reader|].
  unfold reader_of, run, read. rewrite Hsink.
  destruct (read_loop_echo (NewScanner (pipe_of s w)) (parent_fd s)
              (stream_end s (started_output prog w)) fuel [] None
              (started_world prog w) (stream_bytes s (started_output prog w)) old)
    as (w1 & Hrun & Hout & _ & Hch & _);
    [apply started_pipe | by apply started_old | exact Hfuel |].
  change {| src := src (NewScanner (pipe_of s w)); token := []; serr := None |}
    with (NewScanner (pipe_of s w)) in Hrun.
  rewrite Hrun. eexists. split; [reflexivity|]. split; [exact Hout|]. exact Hch.
Qed.

End Output.

(** C6. After a successful launch of a command that names no sink for a
    stream, the goroutine [Start] has left for that stream writes every line
    the scanner decodes from the child's output, each followed by a newline
    and in the order of the stream, to the standard output of the calling
    process for the child's standard output and to its standard error for
    the child's standard error, and returns. *)
Theorem no_sink_echoes (ctx : Context) (w : World) (prog : Program) (s : stream)
    (old : list byte) (fuel : nat) :
  launch_error ctx w = None ->
  installed (host w) !! Name (this w) = Some prog ->
  sink_of s (this w) = None ->
  files w !! parent_fd s = Some (Inherited old) ->
  length (stream_bytes s (started_output prog w)) < fuel ->
  reader_of s w ∈ gos (Start ctx w).2 /\
  exists w2,
    run fuel (reader_of s w) (Start ctx w).2 = (Returned, w2) /\
    files w2 !! parent_fd s =
      Some (Inherited
              (old ++ echoed (scan_lines fuel (stream_bytes s (started_output prog w))))).
Proof.
  intros Hl Hp Hsink Hold Hfuel.
  destruct (reader_without_sink ctx w prog s Hl Hp old fuel Hsink Hold Hfuel)
    as (Hin & w2 & Hrun & Hout & _).
  split; [exact Hin|]. by exists w2.
Qed.

Lemma no_sink_echoes_witness :
  exists w2,
    run 64 (reader_of StdoutStream (boot redirected a_host))
      (Start Background (boot redirected a_host)).2 = (Returned, w2) /\
    files w2 !! os_Stdout =
      Some (Inherited (bytes_of "This output should be seen in our logs" ++ [newline])).
Proof.
  refine (proj2 (no_sink_echoes Background (boot redirected a_host) echo StdoutStream
                   [] 64 _ _ _ _ _)).
  - vm_compute. reflexivity.
  - vm_compute. reflexivity.
  - reflexivity.
  - reflexivity.
  - vm_compute. lia.
Defined.

(** X1. When every line the child writes fits the buffer of the scanner and the
    stream is read to its end, the sink of a stream receives the lines of
    the stream, in order and each once, and is closed after the last. *)
Lemma sink_receives_short_lines (ctx : Context) (w : World) (prog : Program)
    (s : stream) (c : chan) (fuel : nat) :
  launch_error ctx w = None ->
  installed (host w) !! Name (this w) = Some prog ->
  sink_of s (this w) = Some c ->
  closed (chan_get w c) = false ->
  length (stream_bytes s (started_output prog w)) < fuel ->
  Forall (fun l => length l < MaxScanTokenSize)
    (raw_lines (stream_bytes s (started_output prog w))) ->
  exists w2,
    run fuel (reader_of s w) (Start ctx w).2 = (Returned, w2) /\
    chan_get w2 c =
      {| queue := queue (chan_get w c)
                    ++ lines_of (stream_bytes s (started_output prog w));
         closed := true |}.
Proof.
  intros Hl Hp Hsink Hopen Hfuel Hshort.
  destruct (reader_with_sink ctx w prog s Hl Hp c fuel Hsink Hopen Hfuel)
    as (_ & w2 & Hrun & Hq).
  exists w2. split; [exact Hrun|]. rewrite Hq.
  by destruct (scan_lines_short fuel _ Hfuel Hshort) as [-> _].
Qed.

(** C1. The child writes a line of 64 KiB and the line "tail" after it, and
    ends its output. The launch succeeds and the goroutine of the stream
    returns with the sink closed, but nothing has been handed over on the
    sink: the scanner stops at the long line with [ErrTooLong], which [read]
    never looks at, and the line after it is lost. *)
Theorem long_line_cuts_stream :
  let w := boot (with_sink "banner") banner_host in
  launch_error Background w = None /\
  stream_bytes StdoutStream (started_output banner w) = long_line /\
  stream_end StdoutStream (started_output banner w) = None /\
  length (raw_lines long_line) = 2 /\
  lines_of long_line !! 1 = Some "tail" /\
  scan_err 1 long_line None = Some ErrTooLong /\
  forall fuel, length long_line < fuel ->
    exists w2,
      run fuel (reader_of StdoutStream w) (Start Background w).2 = (Returned, w2) /\
      chan_get w2 7 = {| queue := []; closed := true |}.
Proof.
  cbv zeta.
  assert (Hl : launch_error Background (boot (with_sink "banner") banner_host) = None)
    by (vm_compute; reflexivity).
  assert (Hp : installed (host (boot (with_sink "banner") banner_host))
                 !! Name (this (boot (with_sink "banner") banner_host)) = Some banner)
    by reflexivity.
  split; [exact Hl|]. split; [reflexivity|]. split; [reflexivity|].
  split; [vm_compute; reflexivity|]. split; [vm_compute; reflexivity|].
  split; [vm_compute; reflexivity|].
  intros fuel Hfuel.
  destruct (reader_with_sink Background _ banner StdoutStream Hl Hp 7 fuel
              eq_refl eq_refl Hfuel) as (_ & w2 & Hrun & Hq).
  exists w2. split; [exact Hrun|]. rewrite Hq.
  destruct fuel as [|n]; [lia|].
  change (stream_bytes StdoutStream
            (started_output banner (boot (with_sink "banner") banner_host)))
    with long_line.
  cbn [scan_lines].
  replace (next_token long_line) with TooLong by (vm_compute; reflexivity).
  reflexivity.
Qed.

(** C5 as it stands fails: a stream that ends in a failed read makes the
    goroutine return as an end-of-file does. *)
Lemma read_error_does_not_panic :
  ~ (forall (ctx : Context) (w : World) (prog : Program) (s : stream) (e : error)
            (fuel : nat),
       launch_error ctx w = None ->
       installed (host w) !! Name (this w) = Some prog ->
       stream_end s (started_output prog w) = Some e ->
       length (stream_bytes s (started_output prog w)) < fuel ->
       exists v, (run fuel (reader_of s w) (Start ctx w).2).1 = Panicked v).
Proof.
  intros H.
  destruct (H Background (boot (with_sink "flaky") a_host) flaky StdoutStream EIO 16)
    as [v Hv]; try (vm_compute; reflexivity).
  - vm_compute. lia.
  - vm_compute in Hv. discriminate.
Qed.

(** C5, amended. A failed read on an output stream of the child is not
    reported and does not end the program: the goroutine of the stream hands
    on the lines scanned up to the failure (to the sink when there is an
    open one, and then closes it; to the stream of the calling process when
    there is none) and returns as it does at end-of-file. *)
Theorem read_error_ends_relay (ctx : Context) (w : World) (prog : Program)
    (s : stream) (e : error) (old : list byte) (fuel : nat) :
  launch_error ctx w = None ->
  installed (host w) !! Name (this w) = Some prog ->
  stream_end s (started_output prog w) = Some e ->
  length (stream_bytes s (started_output prog w)) < fuel ->
  match sink_of s (this w) with
  | Some c => closed (chan_get w c) = false
  | None => files w !! parent_fd s = Some (Inherited old)
  end ->
  exists w2,
    run fuel (reader_of s w) (Start ctx w).2 = (Returned, w2) /\
    match sink_of s (this w) with
    | Some c =>
        chan_get w2 c =
          {| queue := queue (chan_get w c)
                        ++ scan_lines fuel (stream_bytes s (started_output prog w));
             closed := true |}
    | None =>
        files w2 !! parent_fd s =
          Some (Inherited
                  (old ++ echoed (scan_lines fuel (stream_bytes s (started_output prog w)))))
    end.
Proof.
  intros Hl Hp _ Hfuel Hdest.
  destruct (sink_of s (this w)) as [c|] eqn:Hsink.
  - destruct (reader_with_sink ctx w prog s Hl Hp c fuel Hsink Hdest Hfuel)
      as (_ & w2 & Hrun & Hq). by exists w2.
  - destruct (reader_without_sink ctx w prog s Hl Hp old fuel Hsink Hdest Hfuel)
      as (_ & w2 & Hrun & Hout & _). by exists w2.
Qed.

Lemma read_error_ends_relay_witness :
  exists w2,
    run 16 (reader_of StdoutStream (boot (with_sink "flaky") a_host))
      (Start Background (boot (with_sink "flaky") a_host)).2 = (Returned, w2) /\
    chan_get w2 7 = {| queue := ["one"; "two"]; closed := true |}.
Proof.
  refine (read_error_ends_relay Background (boot (with_sink "flaky") a_host) flaky
            StdoutStream EIO [] 16 _ _ _ _ _).
  - vm_compute. reflexivity.
  - vm_compute. reflexivity.
  - reflexivity.
  - vm_compute. lia.
  - reflexivity.
Defined.

(** ** The stdin goroutine of a launch *)

(** The goroutine of the source in the world a launch leaves, after the
    caller has pushed its lines and closed the source. *)
Lemma stdin_relay_run (w : World) (prog : Program) (source : chan)
    (lines : list string) (fuel : nat) :
  Stdin (this w) = Some source ->
  queue (chan_get w source) = [] ->
  length lines < fuel ->
  let stdin := length (files w) in
  let plan := write_plan (host w) in
  exists st w2,
    run fuel (StdinRelay stdin) (push_and_close source lines (started_world prog w))
      = (st, w2) /\
    match first_refusal plan lines with
    | None =>
        st = match close_plan (host w) with
             | None => Returned
             | Some e => Panicked (PanicErr e)
             end /\
        files w2 !! stdin
          = Some (PipeOut (joined lines) (drop (length lines) plan)
                    (close_plan (host w)) true)
    | Some (k, r) =>
        exists line,
          lines !! k = Some line /\
          st = Panicked (refusal r (bytes_of line)) /\
          files w2 !! stdin
            = Some (PipeOut (joined (take k lines) ++ taken r (bytes_of line))
                      (drop (S k) plan) (close_plan (host w)) false)
    end.
Proof.
  intros Hsrc Hq Hfuel. cbv zeta.
  destruct (started_stdin_pipe w prog source Hsrc) as [Hpipe _].
  set (w1 := push_and_close source lines (started_world prog w)).
  assert (Hch : chan_get w1 source = {| queue := lines; closed := true |}).
  { subst w1. unfold push_and_close. rewrite chan_get_put_eq.
    change (chan_get (started_world prog w) source) with (chan_get w source).
    by rewrite Hq. }
  destruct (stdin_loop_run source (length (files w)) (close_plan (host w)) true fuel
              w1 lines [] (write_plan (host w)) Hch Hpipe Hfuel)
    as (st & w' & Hrun & Hspec & _).
  unfold run, stdin_relay.
  change (Stdin (this w1)) with (Stdin (this w)). rewrite Hsrc, Hrun.
  destruct (first_refusal (write_plan (host w)) lines) as [[k r]|].
  - destruct Hspec as (line & Hk & -> & Hfile & _).
    eexists _, _. split; [reflexivity|]. by exists line.
  - destruct Hspec as (-> & Hfile & _). unfold Close. rewrite Hfile.
    destruct (close_plan (host w)) as [e|]; eexists _, _;
      (split; [reflexivity|]); (split; [reflexivity|]);
      by erewrite files_put_eq.
Qed.

Lemma bytes_of_app (a b : string) : bytes_of (a +:+ b) = bytes_of a ++ bytes_of b.
Proof.
  unfold bytes_of, String.list_byte_of_string.
  induction a as [|x a IH]; simpl; [done | by rewrite IH].
Qed.

Lemma joined_concat (lines : list string) :
  joined lines = bytes_of (String.concat "" lines).
Proof.
  unfold joined. induction lines as [|l [|l' ls] IH]; [done|..].
  - simpl. by rewrite app_nil_r.
  - cbn [fmap list_fmap concat] in *. cbn [String.concat].
    rewrite !bytes_of_app, IH. done.
Qed.

Lemma newlines_app (a b : list byte) : newlines (a ++ b) = newlines a + newlines b.
Proof. unfold newlines. by rewrite List.filter_app, length_app. Qed.

Lemma newlines_joined (lines : list string) :
  newlines (joined lines) = sum_list (newlines ∘ bytes_of <$> lines).
Proof.
  unfold joined. induction lines as [|l ls IH]; [done|].
  cbn [fmap list_fmap concat sum_list sum_list_with] in *.
  by rewrite newlines_app, IH.
Qed.

(** C2. After a successful launch of a command with a stdin source, the
    goroutine [Start] has started for the source takes the lines the caller
    pushes before closing the source, one at a time and in order, and writes
    the bytes of each to the child's standard input. When every write takes
    its whole line, the pipe holds the bytes of all the lines and is closed
    by the goroutine, which returns, or panics with the error of the close
    when the close fails. At the first write that reports an error or takes
    less than the line, the goroutine panics: the lines before it have been
    written, the ones after it are not, and the pipe is left open. *)
Theorem stdin_relay_behaviour (ctx : Context) (w : World) (source : chan)
    (lines : list string) (fuel : nat) :
  launch_error ctx w = None ->
  Stdin (this w) = Some source ->
  queue (chan_get w source) = [] ->
  length lines < fuel ->
  let stdin := length (files w) in
  let plan := write_plan (host w) in
  StdinRelay stdin ∈ gos (Start ctx w).2 /\
  exists st w2,
    run fuel (StdinRelay stdin) (push_and_close source lines (Start ctx w).2) = (st, w2) /\
    match first_refusal plan lines with
    | None =>
        st = match close_plan (host w) with
             | None => Returned
             | Some e => Panicked (PanicErr e)
             end /\
        files w2 !! stdin
          = Some (PipeOut (joined lines) (drop (length lines) plan)
                    (close_plan (host w)) true)
    | Some (k, r) =>
        exists line,
          lines !! k = Some line /\
          st = Panicked (refusal r (bytes_of line)) /\
          files w2 !! stdin
            = Some (PipeOut (joined (take k lines) ++ taken r (bytes_of line))
                      (drop (S k) plan) (close_plan (host w)) false)
    end.
Proof.
  intros Hl Hsrc Hq Hfuel. cbv zeta.
  destruct (Start_ok ctx w Hl) as (prog & _ & ->). cbn [snd].
  split; [by eapply started_stdin_pipe|].
  exact (stdin_relay_run w prog source lines fuel Hsrc Hq Hfuel).
Qed.

Lemma stdin_relay_behaviour_witness :
  exists st w2,
    run 8 (StdinRelay 3)
      (push_and_close 5 ["This output should be seen in our logs"]
         (Start Background (boot feeding a_host)).2) = (st, w2) /\
    st = Returned /\
    files w2 !! 3
      = Some (PipeOut (bytes_of "This output should be seen in our logs") [] None true).
Proof.
  refine (proj2 (stdin_relay_behaviour Background (boot feeding a_host) 5
                   ["This output should be seen in our logs"] 8 _ _ _ _)).
  - vm_compute. reflexivity.
  - reflexivity.
  - reflexivity.
  - simpl. lia.
Defined.

(** A write that fails, a write that is short and a close that fails each
    end in a panic of the goroutine. *)
Example stdin_write_fails :
  (run 8 (StdinRelay 3)
     (push_and_close 5 ["first"; "second"; "third"]
        (Start Background (boot feeding broken_pipe_host)).2)).1
  = Panicked (CannotWriteStdin EPIPE).
Proof. vm_compute. reflexivity. Qed.

Example stdin_write_is_short :
  (run 8 (StdinRelay 3)
     (push_and_close 5 ["first"]
        (Start Background (boot feeding short_write_host)).2)).1
  = Panicked (WroteWant 1 5).
Proof. vm_compute. reflexivity. Qed.

Example stdin_close_fails :
  (run 8 (StdinRelay 3)
     (push_and_close 5 ["first"]
        (Start Background (boot feeding close_fails_host)).2)).1
  = Panicked (PanicErr EIO).
Proof. vm_compute. reflexivity. Qed.

(** As long as the source is open and empty the goroutine waits; it does not
    close the pipe before the source is closed. *)
Example stdin_waits_for_source :
  let r := run 8 (StdinRelay 3) (Start Background (boot feeding a_host)).2 in
  r.1 = Blocked /\ files r.2 !! 3 = Some (PipeOut [] [] None false).
Proof. vm_compute. done. Qed.

(** C9. When every write takes its whole line and the close succeeds, the
    child finds on its standard input the bytes of the lines of the source
    one after the other, followed by end-of-input: the bytes of the
    concatenation of the lines, with exactly the newlines the lines
    themselves hold and none added between them. *)
Theorem stdin_is_concatenation (ctx : Context) (w : World) (source : chan)
    (lines : list string) (fuel : nat) :
  launch_error ctx w = None ->
  Stdin (this w) = Some source ->
  queue (chan_get w source) = [] ->
  length lines < fuel ->
  first_refusal (write_plan (host w)) lines = None ->
  close_plan (host w) = None ->
  exists w2,
    run fuel (StdinRelay (length (files w)))
      (push_and_close source lines (Start ctx w).2) = (Returned, w2) /\
    child_stdin w2 (started_process w)
      = (bytes_of (String.concat "" lines), true) /\
    newlines (child_stdin w2 (started_process w)).1
      = sum_list (newlines ∘ bytes_of <$> lines).
Proof.
  intros Hl Hsrc Hq Hfuel Hok Hclose.
  destruct (Start_ok ctx w Hl) as (prog & _ & ->). cbn [snd].
  destruct (stdin_relay_run w prog source lines fuel Hsrc Hq Hfuel)
    as (st & w2 & Hrun & Hspec).
  rewrite Hok, Hclose in Hspec. destruct Hspec as [-> Hfile].
  exists w2. split; [exact Hrun|].
  unfold child_stdin, started_process. cbn [p_stdin]. rewrite Hsrc, Hfile.
  cbn [fst]. by rewrite <-joined_concat, newlines_joined.
Qed.

Lemma stdin_is_concatenation_witness :
  exists w2,
    run 8 (StdinRelay 3)
      (push_and_close 5 ["ab"; "cd"] (Start Background (boot feeding a_host)).2)
      = (Returned, w2) /\
    child_stdin w2 (started_process (boot feeding a_host)) = (bytes_of "abcd", true) /\
    newlines (child_stdin w2 (started_process (boot feeding a_host))).1 = 0.
Proof.
  refine (stdin_is_concatenation Background (boot feeding a_host) 5 ["ab"; "cd"] 8
            _ _ _ _ _ _).
  - vm_compute. reflexivity.
  - reflexivity.
  - reflexivity.
  - simpl. lia.
  - reflexivity.
  - reflexivity.
Defined.

(** ** The scenarios of the tests *)

(** [TestCommand_ConsumeOutput]: the sink receives the greeting and is
    closed; a second receive says so without waiting. *)
Example consume_output :
  let w1 := (Start Background (boot greeting a_host)).2 in
  let r := run 32 (reader_of StdoutStream (boot greeting a_host)) w1 in
  (Start Background (boot greeting a_host)).1.2 = None /\
  r.1 = Returned /\
  chan_get r.2 7 = {| queue := ["Hello George"]; closed := true |} /\
  (chan_recv 7 (chan_put 7 {| queue := []; closed := true |} r.2)).1
    = (None, Returned).
Proof. vm_compute. done. Qed.

(** A pipe that cannot be made and a fork that fails come back from [Start]
    as its error. *)
Example pipe_failure_is_returned :
  let h := set_pipe_plan [None; Some EMFILE] a_host in
  let r := Start Background (boot greeting h) in
  r.1 = (None, Some EMFILE) /\ procs r.2 = [] /\ gos r.2 = [].
Proof. vm_compute. done. Qed.

Example canceled_context_is_returned :
  let r := Start {| ctx_done := true |} (boot greeting a_host) in
  r.1 = (None, Some ErrCanceled) /\ procs r.2 = [] /\ gos r.2 = [].
Proof. vm_compute. done. Qed.

(** The scanner on small streams: a carriage return before the newline is
    dropped, an empty line is a line, and the bytes after the last newline
    are one. *)
Example scan_small :
  scan_lines 32 (bytes_of "a" ++ [carriage_return; newline; newline] ++ bytes_of "b")
    = ["a"; ""; "b"].
Proof. vm_compute. reflexivity. Qed.

(** * More of [Start] and its goroutines *)

(** ** Readers on any world *)

(** [read] with an open sink, and what it leaves alone. *)
Lemma read_sink_frame (r : fd) (c : chan) (f : fd) (fuel : nat) (w1 : World)
    (p : list byte) (e : option error) :
  files w1 !! r = Some (PipeIn p e) ->
  closed (chan_get w1 c) = false ->
  length p < fuel ->
  exists w2,
    read fuel (NewScanner r) (Some c) f w1 = (Returned, w2) /\
    chan_get w2 c = {| queue := queue (chan_get w1 c) ++ scan_lines fuel p;
                       closed := true |} /\
    (forall c', c <> c' -> chan_get w2 c' = chan_get w1 c') /\
    (forall f', r <> f' -> files w2 !! f' = files w1 !! f') /\
    same_program w1 w2.
Proof.
  intros Hsrc Hopen Hfuel. unfold read.
  destruct (read_loop_sink (NewScanner r) f e c fuel [] None w1 p Hsrc Hopen Hfuel)
    as (w' & Hrun & Hq & Hc & _ & Hf & Hsame).
  change {| src := src (NewScanner r); token := []; serr := None |}
    with (NewScanner r) in Hrun.
  rewrite Hrun. unfold chan_close. rewrite Hq. cbn [closed queue].
  eexists. split; [reflexivity|]. split; [by rewrite chan_get_put_eq|].
  split; [|split].
  - intros c' Hne. rewrite chan_get_put_ne by done. by apply Hc.
  - intros f' Hne. cbn [files chan_put set_chans]. by apply Hf.
  - etrans; [exact Hsame|]. done.
Qed.

(** [read] with a sink that is closed already: the first send panics, and
    when there is nothing to send the deferred close does. *)
Lemma read_closed_sink (r : fd) (c : chan) (f : fd) (fuel : nat) (w1 : World)
    (p : list byte) (e : option error) :
  files w1 !! r = Some (PipeIn p e) ->
  closed (chan_get w1 c) = true ->
  (read (S fuel) (NewScanner r) (Some c) f w1).1
    = Panicked (match next_token p with
                | Token _ _ => SendOnClosed
                | _ => CloseOfClosed
                end).
Proof.
  intros Hsrc Hshut. unfold read. cbn [read_loop]. unfold Scan.
  cbn [src NewScanner]. rewrite Hsrc.
  destruct (next_token p) as [tok rest| |].
  - unfold chan_send.
    change (chan_get (file_put r (PipeIn rest e) w1) c) with (chan_get w1 c).
    by rewrite Hshut.
  - unfold chan_close. by rewrite Hshut.
  - unfold chan_close. by rewrite Hshut.
Qed.

(** ** What the tokens of the scanner are *)

Section Tokens.

Lemma index_newline_take (p : list byte) (i : nat) :
  index_newline p = Some i -> newline ∉ take i p.
Proof.
  revert i. induction p as [|b rest IH]; intros i H; simpl in *; [discriminate|].
  destruct (Byte.eqb b newline) eqn:Hb.
  - injection H as <-. simpl. apply not_elem_of_nil.
  - destruct (index_newline rest) as [j|]; [|discriminate]. injection H as <-.
    simpl. rewrite not_elem_of_cons. split; [|by apply IH].
    intros <-. discriminate Hb.
Qed.

Lemma index_newline_none (p : list byte) :
  index_newline p = None -> newline ∉ p.
Proof.
  induction p as [|b rest IH]; intros H; simpl in *; [apply not_elem_of_nil|].
  destruct (Byte.eqb b newline) eqn:Hb; [discriminate|].
  destruct (index_newline rest); [discriminate|].
  rewrite not_elem_of_cons. split; [|by apply IH].
  intros <-. discriminate Hb.
Qed.

Lemma dropCR_prefix (l : list byte) : exists n, dropCR l = take n l.
Proof.
  unfold dropCR. destruct (last l) as [b|]; [destruct (Byte.eqb b carriage_return)|].
  - by eexists.
  - exists (length l). by rewrite firstn_all.
  - exists (length l). by rewrite firstn_all.
Qed.

Lemma dropCR_id (l : list byte) : carriage_return ∉ l -> dropCR l = l.
Proof.
  intros H. unfold dropCR. destruct (last l) as [b|] eqn:Hlast; [|done].
  destruct (Byte.eqb b carriage_return) eqn:Hb; [|done].
  apply Byte.byte_dec_bl in Hb as ->. apply last_Some_elem_of in Hlast. done.
Qed.

Lemma next_token_line (p tok rest : list byte) :
  next_token p = Token tok rest ->
  (newline ∉ tok) /\ length tok < MaxScanTokenSize.
Proof.
  unfold next_token. destruct (index_newline p) as [i|] eqn:Hi.
  - destruct (Nat.leb_spec MaxScanTokenSize i); [discriminate|].
    intros [= <- _]. destruct (dropCR_prefix (take i p)) as [n ->].
    split.
    + intros Hin. apply (index_newline_take _ _ Hi).
      by apply (subseteq_take n (take i p)).
    + rewrite !length_take. lia.
  - destruct (Nat.leb_spec MaxScanTokenSize (length p)); [discriminate|].
    destruct p as [|b p']; [discriminate|]. intros [= <- _].
    destruct (dropCR_prefix (b :: p')) as [n ->]. split.
    + intros Hin. apply (index_newline_none _ Hi).
      by apply (subseteq_take n (b :: p')).
    + rewrite length_take. lia.
Qed.

Lemma bytes_of_string_of (l : list byte) : bytes_of (string_of l) = l.
Proof. apply String.list_byte_of_string_of_list_byte. Qed.

Lemma scan_lines_are_lines (fuel : nat) (p : list byte) :
  Forall (fun l => (newline ∉ bytes_of l) /\ length (bytes_of l) < MaxScanTokenSize)
    (scan_lines fuel p).
Proof.
  revert p. induction fuel as [|n IH]; intros p; simpl; [constructor|].
  destruct (next_token p) as [tok rest| |] eqn:Hn; [|constructor..].
  constructor; [|apply IH]. rewrite bytes_of_string_of. by eapply next_token_line.
Qed.

(** The lines of a stream put together again, a newline after each, are the
    stream, with a newline more when the stream does not end in one. *)
Lemma raw_lines_join (bs : list byte) :
  concat ((fun l => l ++ [newline]) <$> raw_lines bs)
    = bs ++ (if unterminated bs then [newline] else []).
Proof.
  induction bs as [|b rest IH]; [done|]. simpl.
  destruct (Byte.eqb b newline) eqn:Hb.
  - apply Byte.byte_dec_bl in Hb as ->. cbn [fmap list_fmap concat app].
    rewrite IH. f_equal. f_equal. unfold unterminated.
    destruct rest as [|b' rest']; [done|]. by rewrite last_cons_cons.
  - destruct rest as [|b' rest'].
    + simpl. unfold unterminated. simpl. by rewrite Hb.
    + assert (Hne : raw_lines (b' :: rest') <> []).
      { simpl. destruct (Byte.eqb b' newline); [done|].
        by destruct (raw_lines rest'). }
      destruct (raw_lines (b' :: rest')) as [|l ls] eqn:Hr; [done|].
      cbn [fmap list_fmap concat app] in *. rewrite IH. reflexivity.
Qed.

Lemma raw_lines_elem (bs l : list byte) (x : byte) :
  l ∈ raw_lines bs -> x ∈ l -> x ∈ bs.
Proof.
  revert l. induction bs as [|b rest IH]; intros l Hl Hx; simpl in *.
  { by apply elem_of_nil in Hl. }
  destruct (Byte.eqb b newline).
  - apply elem_of_cons in Hl as [-> | Hl]; [by apply elem_of_nil in Hx|].
    right. by eapply IH.
  - destruct (raw_lines rest) as [|l' ls].
    + apply list_elem_of_singleton in Hl as ->.
      apply list_elem_of_singleton in Hx as ->. by left.
    + apply elem_of_cons in Hl as [-> | Hl].
      * apply elem_of_cons in Hx as [-> | Hx]; [by left|].
        right. eapply IH; [by left | done].
      * right. eapply IH; [by right | done].
Qed.

(** Without carriage returns, echoing the decoded lines gives the stream
    back. *)
Lemma echoed_lines_of (bs : list byte) :
  carriage_return ∉ bs ->
  echoed (lines_of bs) = bs ++ (if unterminated bs then [newline] else []).
Proof.
  intros Hcr. rewrite <-raw_lines_join. unfold echoed, lines_of.
  rewrite <-list_fmap_compose. f_equal. apply list_fmap_ext.
  intros i l Hl%list_elem_of_lookup_2. unfold compose.
  rewrite bytes_of_string_of, dropCR_id; [done|].
  intros Hin. apply Hcr. by eapply raw_lines_elem.
Qed.

End Tokens.

(** ** The descriptors after a launch that fails *)

Section Closing.

Lemma Close_lookup_ne (f f' : fd) (w : World) :
  f <> f' -> files (Close f w).2 !! f' = files w !! f'.
Proof.
  intros Hne. unfold Close.
  destruct (files w !! f) as [[| | ? ? ? []|]|]; cbn [snd]; try done;
    by apply files_put_ne.
Qed.

Lemma Close_stdin_pipe (f : fd) (w : World) (written : list byte)
    (plan : list wres) (cerr : option error) :
  files w !! f = Some (PipeOut written plan cerr false) ->
  files (Close f w).2 !! f = Some (PipeOut written plan cerr true).
Proof. intros H. unfold Close. rewrite H. cbn [snd]. by eapply files_put_eq. Qed.

Lemma closeDescriptors_cons (f : fd) (fs : list fd) (w : World) :
  closeDescriptors (f :: fs) w = closeDescriptors fs (Close f w).2.
Proof. reflexivity. Qed.

Lemma closeDescriptors_lookup_ne (fs : list fd) (f : fd) (w : World) :
  f ∉ fs -> files (closeDescriptors fs w) !! f = files w !! f.
Proof.
  revert w. induction fs as [|f' fs IH]; intros w Hnot; [done|].
  apply not_elem_of_cons in Hnot as [Hne Hnot].
  rewrite closeDescriptors_cons, IH by done. by apply Close_lookup_ne.
Qed.

Lemma exec_Start_failed (cmd : Cmd) (w : World) (e : error) :
  lookPathErr cmd = LookPath (Path cmd) w ->
  cmd_Process cmd = None ->
  match LookPath (Path cmd) w with
  | Some e => Some e
  | None =>
      if ctx_done (cmd_ctx cmd) then Some ErrCanceled
      else match (cmd_environ cmd w).2 with
           | Some e => Some e
           | None => fork_plan (host w)
           end
  end = Some e ->
  exec_Start cmd w = ((cmd, Some e), closeDescriptors (cmd_pipes cmd) w).
Proof.
  intros Hlook Hproc He. unfold exec_Start. rewrite Hlook, Hproc.
  unfold LookPath in *.
  destruct (installed (host w) !! Path cmd) as [prog|] eqn:Hprog.
  - destruct (ctx_done (cmd_ctx cmd)); [by injection He as <-|].
    destruct (cmd_environ cmd w) as [env [e0|]]; cbn [snd] in He;
      [by injection He as <- | by rewrite He].
  - by injection He as <-.
Qed.

End Closing.

(** A failed launch leaves every descriptor that was there before as it
    was; when its three pipes could be made and the start of the child
    failed, it leaves the stdin pipe closed. *)
Lemma Start_err_files (ctx : Context) (w : World) (e : error) :
  launch_error ctx w = Some e ->
  (forall f x, files w !! f = Some x -> files (Start ctx w).2 !! f = Some x) /\
  (forall source,
     Stdin (this w) = Some source ->
     first_error (take 3 (pipe_plan (host w))) = None ->
     files (Start ctx w).2 !! length (files w)
       = Some (PipeOut [] (write_plan (host w)) (close_plan (host w)) true)).
Proof.
  destruct w as [c chs fs ps gs [env inst pp fp wp cp]].
  unfold launch_error, pipes_needed, Start, StdinPipe, StdoutPipe,
    StderrPipe, os_Pipe.
  cbn [this host pipe_plan files procs gos chans write_plan close_plan].
  destruct (Stdin c) as [source|] eqn:Hstdin;
    destruct pp as [|[e1|] [|[e2|] [|[e3|] rest]]]; cbn; intros H.
  all: try match goal with
       | |- context [exec_Start ?cmd ?w0] =>
           rewrite (exec_Start_failed cmd w0 e);
             [ | reflexivity | reflexivity
               | unfold LookPath in *; cbn in *; exact H ]
       end.
  all: cbn [snd]; split;
    [ intros f x Hf; pose proof (lookup_lt_Some _ _ _ Hf) as Hlt
    | intros source' Hs Hp; try discriminate ].
  all: try (cbn; rewrite ?app_nil_r; repeat apply lookup_app_l_Some; exact Hf).
  all: cbn [cmd_pipes set_cmd_Stderr set_cmd_Stdout set_cmd_Stdin set_cmd_Env
            CommandContext files set_files set_host go set_gos app].
  all: rewrite ?length_app; cbn [length].
  all: try (rewrite closeDescriptors_lookup_ne
              by (rewrite !not_elem_of_cons; repeat split;
                  [lia.. | apply not_elem_of_nil]);
            cbn; repeat apply lookup_app_l_Some; exact Hf).
  all: rewrite closeDescriptors_cons, closeDescriptors_lookup_ne
         by (rewrite !not_elem_of_cons; repeat split;
             [lia.. | apply not_elem_of_nil]).
  all: apply Close_stdin_pipe; cbn; rewrite <-!app_assoc; cbn;
       by rewrite list_lookup_middle.
Qed.

(** ** The output goroutines, further *)

Lemma sink_receives_short_lines_witness :
  exists w2,
    run 32 (reader_of StdoutStream (boot (two_sinks "both" 7 8) tools_host))
      (Start Background (boot (two_sinks "both" 7 8) tools_host)).2 = (Returned, w2) /\
    chan_get w2 7 = {| queue := ["out1"; "out2"]; closed := true |}.
Proof.
  refine (sink_receives_short_lines Background (boot (two_sinks "both" 7 8) tools_host)
            both StdoutStream 7 32 _ _ _ _ _ _).
  - vm_compute. reflexivity.
  - vm_compute. reflexivity.
  - reflexivity.
  - reflexivity.
  - vm_compute. lia.
  - refine (bool_decide_unpack _ _). vm_compute. exact I.
Defined.

(** X2. After a successful launch of a command that names no sink for a
    stream, when the child's output on that stream has no carriage return
    and no line of 64 KiB or more, the goroutine of the stream copies the
    output byte for byte to the corresponding stream of the calling
    process, and adds a newline when the output does not end in one. *)
Theorem no_sink_copies_output (ctx : Context) (w : World) (prog : Program)
    (s : stream) (old : list byte) (fuel : nat) :
  launch_error ctx w = None ->
  installed (host w) !! Name (this w) = Some prog ->
  sink_of s (this w) = None ->
  files w !! parent_fd s = Some (Inherited old) ->
  length (stream_bytes s (started_output prog w)) < fuel ->
  Forall (fun l => length l < MaxScanTokenSize)
    (raw_lines (stream_bytes s (started_output prog w))) ->
  carriage_return ∉ stream_bytes s (started_output prog w) ->
  exists w2,
    run fuel (reader_of s w) (Start ctx w).2 = (Returned, w2) /\
    files w2 !! parent_fd s =
      Some (Inherited
              (old ++ stream_bytes s (started_output prog w)
                   ++ (if unterminated (stream_bytes s (started_output prog w))
                       then [newline] else []))).
Proof.
  intros Hl Hp Hsink Hold Hfuel Hshort Hcr.
  destruct (reader_without_sink ctx w prog s Hl Hp old fuel Hsink Hold Hfuel)
    as (_ & w2 & Hrun & Hout & _).
  exists w2. split; [exact Hrun|]. rewrite Hout.
  destruct (scan_lines_short fuel _ Hfuel Hshort) as [-> _].
  by rewrite echoed_lines_of.
Qed.

Lemma no_sink_copies_output_witness :
  exists w2,
    run 32 (reader_of StdoutStream (boot (no_sinks "echo-n" ["a b"; "c"]) tools_host))
      (Start Background (boot (no_sinks "echo-n" ["a b"; "c"]) tools_host)).2
      = (Returned, w2) /\
    files w2 !! os_Stdout = Some (Inherited (bytes_of "a b c" ++ [newline])).
Proof.
  refine (no_sink_copies_output Background
            (boot (no_sinks "echo-n" ["a b"; "c"]) tools_host)
            echo_n StdoutStream [] 32 _ _ _ _ _ _ _).
  - vm_compute. reflexivity.
  - vm_compute. reflexivity.
  - reflexivity.
  - reflexivity.
  - vm_compute. lia.
  - refine (bool_decide_unpack _ _). vm_compute. exact I.
  - refine (bool_decide_unpack _ _). vm_compute. exact I.
Defined.

(** X3. Whatever the child writes, what the goroutine of a stream hands
    over on an open sink are single lines: no string it sends holds a
    newline, and none is as long as 64 KiB. *)
Theorem sink_gets_single_lines (ctx : Context) (w : World) (prog : Program)
    (s : stream) (c : chan) (fuel : nat) :
  launch_error ctx w = None ->
  installed (host w) !! Name (this w) = Some prog ->
  sink_of s (this w) = Some c ->
  closed (chan_get w c) = false ->
  length (stream_bytes s (started_output prog w)) < fuel ->
  exists w2 sent,
    run fuel (reader_of s w) (Start ctx w).2 = (Returned, w2) /\
    queue (chan_get w2 c) = queue (chan_get w c) ++ sent /\
    Forall (fun l => (newline ∉ bytes_of l) /\ length (bytes_of l) < MaxScanTokenSize)
      sent.
Proof.
  intros Hl Hp Hsink Hopen Hfuel.
  destruct (reader_with_sink ctx w prog s Hl Hp c fuel Hsink Hopen Hfuel)
    as (_ & w2 & Hrun & Hq).
  exists w2, (scan_lines fuel (stream_bytes s (started_output prog w))).
  split; [exact Hrun|]. split; [by rewrite Hq|]. apply scan_lines_are_lines.
Qed.

Lemma sink_gets_single_lines_witness :
  exists w2 sent,
    run 32 (reader_of StderrStream (boot (two_sinks "both" 7 8) tools_host))
      (Start Background (boot (two_sinks "both" 7 8) tools_host)).2 = (Returned, w2) /\
    queue (chan_get w2 8) = [] ++ sent /\
    Forall (fun l => (newline ∉ bytes_of l) /\ length (bytes_of l) < MaxScanTokenSize)
      sent.
Proof.
  refine (sink_gets_single_lines Background (boot (two_sinks "both" 7 8) tools_host)
            both StderrStream 8 32 _ _ _ _ _).
  - vm_compute. reflexivity.
  - vm_compute. reflexivity.
  - reflexivity.
  - reflexivity.
  - vm_compute. lia.
Defined.

Lemma pipe_of_other (s : stream) (w : World) : pipe_of s w <> pipe_of (other s) w.
Proof. unfold pipe_of. destruct s; simpl; lia. Qed.

(** X4. With two different open sinks, the goroutines of the two streams do
    not get in each other's way: run one after the other, in either order,
    each returns, and each sink ends up closed and holding the lines of its
    own stream only. *)
Theorem readers_are_independent (ctx : Context) (w : World) (prog : Program)
    (s : stream) (c1 c2 : chan) (fuel : nat) :
  launch_error ctx w = None ->
  installed (host w) !! Name (this w) = Some prog ->
  sink_of s (this w) = Some c1 ->
  sink_of (other s) (this w) = Some c2 ->
  c1 <> c2 ->
  closed (chan_get w c1) = false ->
  closed (chan_get w c2) = false ->
  length (stream_bytes s (started_output prog w)) < fuel ->
  length (stream_bytes (other s) (started_output prog w)) < fuel ->
  exists w2 w3,
    run fuel (reader_of s w) (Start ctx w).2 = (Returned, w2) /\
    run fuel (reader_of (other s) w) w2 = (Returned, w3) /\
    chan_get w3 c1 =
      {| queue := queue (chan_get w c1)
                    ++ scan_lines fuel (stream_bytes s (started_output prog w));
         closed := true |} /\
    chan_get w3 c2 =
      {| queue := queue (chan_get w c2)
                    ++ scan_lines fuel (stream_bytes (other s) (started_output prog w));
         closed := true |}.
Proof.
  intros Hl Hp Hs1 Hs2 Hne Ho1 Ho2 Hf1 Hf2.
  rewrite (Start_started ctx w prog Hl Hp). cbn [snd].
  unfold reader_of, run. rewrite Hs1, Hs2.
  destruct (read_sink_frame (pipe_of s w) c1 (parent_fd s) fuel
              (started_world prog w) _ _ (started_pipe w prog s) Ho1 Hf1)
    as (w2 & Hrun1 & Hq1 & Hc1 & Hfiles1 & _).
  destruct (read_sink_frame (pipe_of (other s) w) c2 (parent_fd (other s)) fuel
              w2 (stream_bytes (other s) (started_output prog w))
              (stream_end (other s) (started_output prog w)))
    as (w3 & Hrun2 & Hq2 & Hc2 & _).
  - rewrite Hfiles1 by apply pipe_of_other. apply started_pipe.
  - by rewrite Hc1.
  - exact Hf2.
  - exists w2, w3. split; [exact Hrun1|]. split; [exact Hrun2|]. split.
    + rewrite Hc2 by done. exact Hq1.
    + rewrite Hq2, Hc1 by done. done.
Qed.

Lemma readers_are_independent_witness :
  exists w2 w3,
    run 32 (reader_of StderrStream (boot (two_sinks "both" 7 8) tools_host))
      (Start Background (boot (two_sinks "both" 7 8) tools_host)).2 = (Returned, w2) /\
    run 32 (reader_of StdoutStream (boot (two_sinks "both" 7 8) tools_host)) w2
      = (Returned, w3) /\
    chan_get w3 8 = {| queue := ["warning"]; closed := true |} /\
    chan_get w3 7 = {| queue := ["out1"; "out2"]; closed := true |}.
Proof.
  refine (readers_are_independent Background (boot (two_sinks "both" 7 8) tools_host)
            both StderrStream 8 7 32 _ _ _ _ _ _ _ _ _).
  - vm_compute. reflexivity.
  - vm_compute. reflexivity.
  - reflexivity.
  - reflexivity.
  - lia.
  - reflexivity.
  - reflexivity.
  - vm_compute. lia.
  - vm_compute. lia.
Defined.

(** X5. A sink that the caller has closed makes the goroutine of its stream
    panic: with "send on closed channel" at the first line of the stream,
    and with "close of closed channel" from the deferred close when the
    stream has no line to send. *)
Theorem closed_sink_panics (ctx : Context) (w : World) (prog : Program)
    (s : stream) (c : chan) (fuel : nat) :
  launch_error ctx w = None ->
  installed (host w) !! Name (this w) = Some prog ->
  sink_of s (this w) = Some c ->
  closed (chan_get w c) = true ->
  (run (S fuel) (reader_of s w) (Start ctx w).2).1
    = Panicked (match next_token (stream_bytes s (started_output prog w)) with
                | Token _ _ => SendOnClosed
                | _ => CloseOfClosed
                end).
Proof.
  intros Hl Hp Hsink Hshut.
  rewrite (Start_started ctx w prog Hl Hp). cbn [snd].
  unfold reader_of, run. rewrite Hsink.
  by apply (read_closed_sink _ _ _ _ _ _ _ (started_pipe w prog s)).
Qed.

Lemma closed_sink_panics_witness :
  (run 32 (reader_of StdoutStream
             (chan_put 7 {| queue := []; closed := true |}
                (boot (two_sinks "both" 7 8) tools_host)))
     (Start Background
        (chan_put 7 {| queue := []; closed := true |}
           (boot (two_sinks "both" 7 8) tools_host))).2).1
  = Panicked SendOnClosed.
Proof.
  refine (closed_sink_panics Background
            (chan_put 7 {| queue := []; closed := true |}
               (boot (two_sinks "both" 7 8) tools_host))
            both StdoutStream 7 31 _ _ _ _).
  - vm_compute. reflexivity.
  - vm_compute. reflexivity.
  - reflexivity.
  - vm_compute. reflexivity.
Defined.

(** X6. One channel given as the sink of both streams does not merge them:
    the goroutine that runs to its end first closes the channel, and the
    other one then panics, at its next send or at its own close. *)
Theorem shared_sink_panics (ctx : Context) (w : World) (prog : Program)
    (s : stream) (c : chan) (fuel : nat) :
  launch_error ctx w = None ->
  installed (host w) !! Name (this w) = Some prog ->
  sink_of s (this w) = Some c ->
  sink_of (other s) (this w) = Some c ->
  closed (chan_get w c) = false ->
  length (stream_bytes s (started_output prog w)) < fuel ->
  exists w2,
    run fuel (reader_of s w) (Start ctx w).2 = (Returned, w2) /\
    forall fuel',
      (run (S fuel') (reader_of (other s) w) w2).1
        = Panicked (match next_token (stream_bytes (other s) (started_output prog w)) with
                    | Token _ _ => SendOnClosed
                    | _ => CloseOfClosed
                    end).
Proof.
  intros Hl Hp Hs1 Hs2 Hopen Hfuel.
  rewrite (Start_started ctx w prog Hl Hp). cbn [snd].
  unfold reader_of, run. rewrite Hs1, Hs2.
  destruct (read_sink_frame (pipe_of s w) c (parent_fd s) fuel
              (started_world prog w) _ _ (started_pipe w prog s) Hopen Hfuel)
    as (w2 & Hrun1 & Hq1 & _ & Hfiles1 & _).
  exists w2. split; [exact Hrun1|]. intros fuel'.
  apply (read_closed_sink _ _ _ _ _ _ (stream_end (other s) (started_output prog w))).
  - rewrite Hfiles1 by apply pipe_of_other. apply started_pipe.
  - by rewrite Hq1.
Qed.

Lemma shared_sink_panics_witness :
  exists w2,
    run 32 (reader_of StderrStream (boot (two_sinks "both" 7 7) tools_host))
      (Start Background (boot (two_sinks "both" 7 7) tools_host)).2 = (Returned, w2) /\
    forall fuel',
      (run (S fuel') (reader_of StdoutStream (boot (two_sinks "both" 7 7) tools_host)) w2).1
        = Panicked SendOnClosed.
Proof.
  refine (shared_sink_panics Background (boot (two_sinks "both" 7 7) tools_host)
            both StderrStream 7 32 _ _ _ _ _ _).
  - vm_compute. reflexivity.
  - vm_compute. reflexivity.
  - reflexivity.
  - reflexivity.
  - reflexivity.
  - vm_compute. lia.
Defined.

(** ** The stdin goroutine and the launch, further *)

(** X7. As long as the caller leaves the stdin source open, the goroutine of
    the source does not close the child's standard input: after it has
    written the lines pushed so far (every write taking its whole line), the
    child can read their bytes but no end-of-input, the source is empty and
    the goroutine waits for the next line. *)
Theorem stdin_stays_open (ctx : Context) (w : World) (source : chan)
    (lines : list string) (fuel : nat) :
  launch_error ctx w = None ->
  Stdin (this w) = Some source ->
  queue (chan_get w source) = [] ->
  length lines < fuel ->
  first_refusal (write_plan (host w)) lines = None ->
  exists w2,
    run fuel (StdinRelay (length (files w))) (push source lines (Start ctx w).2)
      = (Blocked, w2) /\
    child_stdin w2 (started_process w) = (joined lines, false) /\
    queue (chan_get w2 source) = [].
Proof.
  intros Hl Hsrc Hq Hfuel Hok.
  destruct (Start_ok ctx w Hl) as (prog & _ & ->). cbn [snd].
  destruct (started_stdin_pipe w prog source Hsrc) as [Hpipe _].
  set (w1 := push source lines (started_world prog w)).
  assert (Hch : chan_get w1 source = {| queue := lines; closed := false |}).
  { subst w1. unfold push. rewrite chan_get_put_eq.
    change (chan_get (started_world prog w) source) with (chan_get w source).
    by rewrite Hq. }
  destruct (stdin_loop_run source (length (files w)) (close_plan (host w)) false fuel
              w1 lines [] (write_plan (host w)) Hch Hpipe Hfuel)
    as (st & w2 & Hrun & Hspec & _).
  rewrite Hok in Hspec. destruct Hspec as (-> & Hfile & Hq2).
  exists w2. unfold run, stdin_relay.
  change (Stdin (this w1)) with (Stdin (this w)). rewrite Hsrc, Hrun.
  split; [done|]. split; [|by rewrite Hq2].
  unfold child_stdin, started_process. cbn [p_stdin]. by rewrite Hsrc, Hfile.
Qed.

Lemma stdin_stays_open_witness :
  exists w2,
    run 8 (StdinRelay 3) (push 5 ["ab"; "cd"] (Start Background (boot feeding a_host)).2)
      = (Blocked, w2) /\
    child_stdin w2 (started_process (boot feeding a_host)) = (bytes_of "abcd", false) /\
    queue (chan_get w2 5) = [].
Proof.
  refine (stdin_stays_open Background (boot feeding a_host) 5 ["ab"; "cd"] 8 _ _ _ _ _).
  - vm_compute. reflexivity.
  - reflexivity.
  - reflexivity.
  - simpl. lia.
  - reflexivity.
Defined.

(** X8. The goroutines [Start] leaves: after a launch that succeeds, the
    one of the stdin source when there is a source, then the one of the
    child's standard output and the one of its standard error, and no
    other; after a launch that fails, never one of an output stream, and at
    most the one of the stdin source. *)
Theorem Start_goroutines (ctx : Context) (w : World) :
  match launch_error ctx w with
  | None =>
      gos (Start ctx w).2
        = gos w
          ++ match Stdin (this w) with
             | Some _ => [StdinRelay (length (files w))]
             | None => []
             end
          ++ [reader_of StdoutStream w; reader_of StderrStream w]
  | Some _ =>
      exists ts,
        gos (Start ctx w).2 = gos w ++ ts /\
        Forall (fun t => is_stdin_relay t = true) ts /\
        length ts <= 1 /\
        (Stdin (this w) = None -> ts = [])
  end.
Proof.
  destruct (launch_error ctx w) as [e|] eqn:He.
  - destruct (Start_err ctx w e He) as (fs' & h' & -> & _). cbn [snd gos].
    exists (leaked w). split; [done|]. unfold leaked.
    destruct (Stdin (this w)) as [source|];
      [destruct (pipe_plan (host w)) as [|[e1|] rest]|];
      (split; [by repeat constructor|]); (split; [simpl; lia|]);
      done.
  - by destruct (Start_ok ctx w He) as (prog & _ & ->).
Qed.

(** X9. [Start] itself does nothing to a channel and nothing to a descriptor
    the calling process had before: whether it succeeds or fails, every
    channel and every such descriptor is as it was when [Start] returns.
    Sends, closes and writes are done by the goroutines only. *)
Theorem Start_touches_no_channel (ctx : Context) (w : World) :
  chans (Start ctx w).2 = chans w /\
  forall f x, files w !! f = Some x -> files (Start ctx w).2 !! f = Some x.
Proof.
  destruct (launch_error ctx w) as [e|] eqn:He.
  - split; [|by apply (Start_err_files ctx w e He)].
    by destruct (Start_err ctx w e He) as (fs' & h' & -> & _).
  - destruct (Start_ok ctx w He) as (prog & _ & ->). cbn [snd]. split; [done|].
    intros f x. apply started_old.
Qed.

(** X10. When a launch with a stdin source fails at the start of the child
    (its pipes could be made), [Start] has closed the stdin pipe under the
    goroutine it started for the source: the first line the caller then
    pushes into the source makes that goroutine panic with "cannot write
    stdin", and with it the program. *)
Theorem push_after_failed_start_panics (ctx : Context) (w : World) (e : error)
    (source : chan) (line : string) (rest : list string) (shut : bool) (fuel : nat) :
  launch_error ctx w = Some e ->
  Stdin (this w) = Some source ->
  first_error (take 3 (pipe_plan (host w))) = None ->
  (Start ctx w).1 = (None, Some e) /\
  StdinRelay (length (files w)) ∈ gos (Start ctx w).2 /\
  (run (S fuel) (StdinRelay (length (files w)))
     (chan_put source {| queue := line :: rest; closed := shut |}
        (Start ctx w).2)).1
    = Panicked (CannotWriteStdin ErrClosed).
Proof.
  intros He Hsrc Hpipes.
  destruct (Start_err_files ctx w e He) as [_ Hshut].
  specialize (Hshut source Hsrc Hpipes).
  destruct (Start_err ctx w e He) as (fs' & h' & HS & _).
  rewrite HS in *. cbn [fst snd gos files] in *. split; [done|]. split.
  { unfold leaked. rewrite Hsrc.
    destruct (pipe_plan (host w)) as [|[e1|] rest']; [set_solver| |set_solver].
    discriminate. }
  unfold run, stdin_relay. cbn [this chan_put set_chans]. rewrite Hsrc.
  cbn [stdin_loop]. unfold chan_recv. rewrite chan_get_put_eq. cbn [queue closed].
  unfold Write. cbn [files chan_put set_chans]. by rewrite Hshut.
Qed.

Lemma push_after_failed_start_panics_witness :
  (Start Background (boot missing a_host)).1
    = (None, Some (ErrNotFound "no-such-program")) /\
  StdinRelay 3 ∈ gos (Start Background (boot missing a_host)).2 /\
  (run 4 (StdinRelay 3)
     (chan_put 5 {| queue := ["input"]; closed := false |}
        (Start Background (boot missing a_host)).2)).1
    = Panicked (CannotWriteStdin ErrClosed).
Proof.
  refine (push_after_failed_start_panics Background (boot missing a_host)
            (ErrNotFound "no-such-program") 5 "input" [] false 3 _ _ _).
  - vm_compute. reflexivity.
  - reflexivity.
  - reflexivity.
Defined.

(** ** Output that is lost *)

(** Without a sink and with the stream of the calling process closed, the
    loop of [read] runs through the tokens and writes none of them. *)
Lemma read_loop_discard (r f : fd) (ending : option error) (fuel : nat) :
  forall (tok : list byte) (serr0 : option error) (w : World) (p : list byte),
    files w !! r = Some (PipeIn p ending) ->
    files w !! f = Some Gone ->
    length p < fuel ->
    exists w',
      read_loop fuel {| src := r; token := tok; serr := serr0 |} None f w
        = (Returned, w') /\
      files w' !! r = Some (PipeIn (scan_rest fuel p) ending) /\
      (forall f', r <> f' -> files w' !! f' = files w !! f') /\
      chans w' = chans w.
Proof.
  induction fuel as [|n IH]; intros tok serr0 w p Hsrc Hf Hlen; [lia|].
  assert (Hne : r <> f) by (intros Heq; rewrite Heq in Hsrc; congruence).
  simpl. unfold Scan. simpl. rewrite Hsrc.
  destruct (next_token p) as [tok' rest| |] eqn:Hn; [|by exists w..].
  cbn [Text token set_token src serr]. unfold Fprintln.
  rewrite files_put_ne by done. rewrite Hf.
  destruct (IH tok' serr0 (file_put r (PipeIn rest ending) w) rest)
    as (w' & Hrun & Hin & Hother & Hch).
  - by eapply files_put_eq.
  - by rewrite files_put_ne.
  - apply next_token_shorter in Hn. lia.
  - exists w'. split; [exact Hrun|]. split; [exact Hin|]. split; [|by rewrite Hch].
    intros f' Hne'. rewrite Hother by done. by rewrite files_put_ne.
Qed.

(** X11. After a launch of a command that names no sink for a stream, made
    by a process whose own stream of that kind has been closed, and with a
    child whose lines on that stream all fit the buffer of the scanner: the
    goroutine of the stream takes all of the child's output out of the pipe
    and returns, without having written a byte of it anywhere and without a
    report. The pipe is left empty, the stream of the calling process is
    still closed, and no channel and no other descriptor has changed. *)
Theorem closed_parent_stream_discards (ctx : Context) (w : World) (prog : Program)
    (s : stream) (fuel : nat) :
  launch_error ctx w = None ->
  installed (host w) !! Name (this w) = Some prog ->
  sink_of s (this w) = None ->
  files w !! parent_fd s = Some Gone ->
  Forall (fun l => length l < MaxScanTokenSize)
    (raw_lines (stream_bytes s (started_output prog w))) ->
  length (stream_bytes s (started_output prog w)) < fuel ->
  files (Start ctx w).2 !! pipe_of s w
    = Some (PipeIn (stream_bytes s (started_output prog w))
                   (stream_end s (started_output prog w))) /\
  exists w2,
    run fuel (reader_of s w) (Start ctx w).2 = (Returned, w2) /\
    files w2 !! pipe_of s w
      = Some (PipeIn [] (stream_end s (started_output prog w))) /\
    files w2 !! parent_fd s = Some Gone /\
    chans w2 = chans w /\
    forall f', pipe_of s w <> f' -> files w2 !! f' = files (Start ctx w).2 !! f'.
Proof.
  intros Hl Hp Hsink Hgone Hshort Hfuel.
  rewrite (Start_started ctx w prog Hl Hp). cbn [snd].
  split; [apply started_pipe|].
  unfold reader_of, run, read. rewrite Hsink.
  destruct (read_loop_discard (pipe_of s w) (parent_fd s)
              (stream_end s (started_output prog w)) fuel [] None
              (started_world prog w) (stream_bytes s (started_output prog w)))
    as (w2 & Hrun & Hin & Hother & Hch);
    [apply started_pipe | by apply started_old | exact Hfuel |].
  change {| src := pipe_of s w; token := []; serr := None |}
    with (NewScanner (pipe_of s w)) in Hrun.
  rewrite Hrun. exists w2. split; [reflexivity|].
  destruct (scan_lines_short fuel _ Hfuel Hshort) as [_ Hrest].
  rewrite Hrest in Hin. split; [exact Hin|]. split; [|by split].
  assert (Hne : pipe_of s w <> parent_fd s).
  { intros Heq. pose proof (started_pipe w prog s) as Hpipe.
    rewrite Heq, (started_old w prog _ _ Hgone) in Hpipe. discriminate. }
  rewrite Hother by exact Hne. by apply started_old.
Qed.

Lemma closed_parent_stream_discards_witness :
  files (Start Background (boot_closed_stdout redirected a_host)).2
      !! pipe_of StdoutStream (boot_closed_stdout redirected a_host)
    = Some (PipeIn
              (stream_bytes StdoutStream
                 (started_output echo (boot_closed_stdout redirected a_host)))
              (stream_end StdoutStream
                 (started_output echo (boot_closed_stdout redirected a_host)))) /\
  exists w2,
    run 64 (reader_of StdoutStream (boot_closed_stdout redirected a_host))
      (Start Background (boot_closed_stdout redirected a_host)).2 = (Returned, w2) /\
    files w2 !! pipe_of StdoutStream (boot_closed_stdout redirected a_host)
      = Some (PipeIn []
                (stream_end StdoutStream
                   (started_output echo (boot_closed_stdout redirected a_host)))) /\
    files w2 !! parent_fd StdoutStream = Some Gone /\
    chans w2 = chans (boot_closed_stdout redirected a_host) /\
    forall f', pipe_of StdoutStream (boot_closed_stdout redirected a_host) <> f' ->
      files w2 !! f' = files (Start Background (boot_closed_stdout redirected a_host)).2 !! f'.
Proof.
  refine (closed_parent_stream_discards Background (boot_closed_stdout redirected a_host)
            echo StdoutStream 64 _ _ _ _ _ _).
  - vm_compute. reflexivity.
  - vm_compute. reflexivity.
  - reflexivity.
  - reflexivity.
  - refine (bool_decide_unpack _ _). vm_compute. exact I.
  - vm_compute. lia.
Defined.

Lemma index_newline_app (a b : list byte) :
  newline ∉ a -> index_newline (a ++ newline :: b) = Some (length a).
Proof.
  induction a as [|x a IH]; intros Hnot; [done|].
  apply not_elem_of_cons in Hnot as [Hne Hnot]. simpl.
  destruct (Byte.eqb x newline) eqn:Hx.
  - apply Byte.byte_dec_bl in Hx. congruence.
  - by rewrite IH.
Qed.

Lemma next_token_app (a b : list byte) :
  newline ∉ a -> length a < MaxScanTokenSize ->
  next_token (a ++ newline :: b) = Token (dropCR a) b.
Proof.
  intros Hnot Hshort. unfold next_token. rewrite index_newline_app by done.
  destruct (Nat.leb_spec MaxScanTokenSize (length a)); [lia|].
  rewrite take_app_length. rewrite cons_middle, app_assoc, drop_app_length'; [done|].
  rewrite length_app. simpl. lia.
Qed.

Lemma scan_lines_prefix (ls : list (list byte)) (rest : list byte) :
  Forall (fun l => (newline ∉ l) /\ length l < MaxScanTokenSize) ls ->
  forall fuel, length (terminated ls ++ rest) < fuel ->
    scan_lines fuel (terminated ls ++ rest)
      = ((fun l => string_of (dropCR l)) <$> ls)
          ++ scan_lines (fuel - length ls) rest.
Proof.
  induction 1 as [|l ls [Hnot Hshort] _ IH]; intros fuel Hfuel.
  { simpl. by rewrite Nat.sub_0_r. }
  destruct fuel as [|n]; [lia|]. unfold terminated in *.
  cbn [fmap list_fmap concat] in *. rewrite <-!app_assoc in *.
  cbn [app scan_lines] in *. rewrite next_token_app by done.
  cbn [length Nat.sub]. rewrite IH; [done|].
  rewrite !length_app in *. simpl in *. rewrite length_app in Hfuel. lia.
Qed.

Lemma terminated_length (ls : list (list byte)) : length ls <= length (terminated ls).
Proof.
  unfold terminated. induction ls as [|l ls IH]; [done|].
  cbn [fmap list_fmap concat length]. rewrite !length_app. simpl. lia.
Qed.

(** X12. When the child's output is some complete lines, each shorter than
    64 KiB, followed by a line the scanner cannot hold, the sink receives
    those first lines, in order and without their terminators, and is then
    closed: the long line and whatever the child writes after it never
    reach the sink, and nothing tells the caller so. *)
Theorem long_line_ends_delivery (ctx : Context) (w : World) (prog : Program)
    (s : stream) (c : chan) (ls : list (list byte)) (rest : list byte) (fuel : nat) :
  launch_error ctx w = None ->
  installed (host w) !! Name (this w) = Some prog ->
  sink_of s (this w) = Some c ->
  closed (chan_get w c) = false ->
  stream_bytes s (started_output prog w) = terminated ls ++ rest ->
  Forall (fun l => (newline ∉ l) /\ length l < MaxScanTokenSize) ls ->
  next_token rest = TooLong ->
  length (stream_bytes s (started_output prog w)) < fuel ->
  exists w2,
    run fuel (reader_of s w) (Start ctx w).2 = (Returned, w2) /\
    chan_get w2 c =
      {| queue := queue (chan_get w c) ++ ((fun l => string_of (dropCR l)) <$> ls);
         closed := true |}.
Proof.
  intros Hl Hp Hsink Hopen Hbytes Hls Hlong Hfuel.
  destruct (reader_with_sink ctx w prog s Hl Hp c fuel Hsink Hopen Hfuel)
    as (_ & w2 & Hrun & Hq).
  exists w2. split; [exact Hrun|]. rewrite Hq, Hbytes.
  rewrite Hbytes in Hfuel. rewrite scan_lines_prefix by done.
  assert (Hmore : length ls < fuel).
  { rewrite length_app in Hfuel. pose proof (terminated_length ls). lia. }
  destruct (fuel - length ls) as [|n] eqn:Hn; [lia|].
  cbn [scan_lines]. by rewrite Hlong, app_nil_r.
Qed.

Lemma long_line_ends_delivery_witness :
  exists w2,
    run (2 * MaxScanTokenSize)
      (reader_of StdoutStream (boot (with_sink "preamble") preamble_host))
      (Start Background (boot (with_sink "preamble") preamble_host)).2 = (Returned, w2) /\
    chan_get w2 7 = {| queue := ["ok"]; closed := true |}.
Proof.
  refine (long_line_ends_delivery Background (boot (with_sink "preamble") preamble_host)
            preamble StdoutStream 7 [bytes_of "ok"] long_line (2 * MaxScanTokenSize)
            _ _ _ _ _ _ _ _).
  - vm_compute. reflexivity.
  - reflexivity.
  - reflexivity.
  - reflexivity.
  - reflexivity.
  - refine (bool_decide_unpack _ _). vm_compute. exact I.
  - vm_compute. reflexivity.
  - apply Nat.ltb_lt. vm_compute. reflexivity.
Defined.
